(** * smartcar-prometheus: the webhook handler of [scp.py]

    A shallow embedding of the request handler class [MyServer] that
    [get_handler] builds: the POST path (header check, body read, JSON
    and signature check, dispatch on [eventType], merge into the vehicle
    store) and the GET path (OpenMetrics rendering of the store).

    Conventions.
    - A Python [str] and a Python [bytes] are both a [string] here: a
      [str] is represented by its UTF-8 encoding, so [.encode()] is the
      identity on it.
    - A value produced by [json.loads] is a [json].  Numbers with a
      fraction or an exponent (Python floats) are not represented.
    - A Python [dict] is an association list in insertion order, read
      through [dict_get] (first binding) and written through [dict_set]
      (in place when the key is bound, appended otherwise).
    - A statement that can raise returns a [result]; the handler threads
      its output stream and the shared store through the monad [M], and
      what was written or stored before an exception stays so.
    - The output stream [wfile] is the list of the writes to the socket.
      [send_response] and [send_header] only fill the header buffer of
      [http.server]; [end_headers] writes the buffer out as one block.
      A block that is written after another one reaches the client as
      part of the body of the first.
    - The functions of the standard library that the handler calls
      ([json.loads], [json.dumps], [hmac], [int], [repr]) are the fields
      of the class [Library]; the properties hold for every instance.
    - [logger] calls and the [print] of [do_GET] write to the log and to
      the standard output only; they are left out. *)

From Stdlib Require Import String Ascii ZArith List Bool Lia.
From Stdlib Require Import DecimalString.
Import ListNotations.
Local Open Scope string_scope.
Local Open Scope Z_scope.

(** ** Text *)

(** The double quote and the line feed, which a literal cannot hold. *)
Definition dq : string := String "034"%char EmptyString.
Definition nl : string := String "010"%char EmptyString.

(** [str(n)] for a Python [int]. *)
Definition str_of_int (n : Z) : string :=
  NilZero.string_of_int (Z.to_int n).

(** [c.lower()] on an ASCII letter; other characters are kept. *)
Definition lower_char (c : ascii) : ascii :=
  let n := nat_of_ascii c in
  if (Nat.leb 65 n && Nat.leb n 90)%bool then ascii_of_nat (n + 32) else c.

Fixpoint lower (s : string) : string :=
  match s with
  | EmptyString => EmptyString
  | String c r => String (lower_char c) (lower r)
  end.

(** [needle in hay] for two [str]. *)
Fixpoint is_substring (needle hay : string) : bool :=
  if String.prefix needle hay then true
  else match hay with
       | EmptyString => false
       | String _ r => is_substring needle r
       end.

(** A decimal digit, its value, and a lower-case hexadecimal digit. *)
Definition is_digit (c : ascii) : bool :=
  let n := nat_of_ascii c in Nat.leb 48 n && Nat.leb n 57.

Definition digit_value (c : ascii) : Z := Z.of_nat (nat_of_ascii c) - 48.

Definition hex_digit (x : nat) : ascii :=
  ascii_of_nat (if Nat.ltb x 10 then 48 + x else 87 + x).

(** ** Python values and exceptions *)

#[local] Unset Elimination Schemes.
Inductive json : Type :=
| JNull
| JBool (b : bool)
| JInt (n : Z)
| JStr (s : string)
| JList (l : list json)
| JDict (d : list (string * json)).
#[local] Set Elimination Schemes.

(** The exceptions of Python that occur here.  [OutsideModel] is not
    one of them: a library instance answers it on an input that this
    development does not represent. *)
Inductive exn : Type :=
| KeyError
| TypeError
| ValueError
| IndexError
| AttributeError
| JSONDecodeError
| UnicodeDecodeError
| RecursionError
| OutsideModel.

Inductive result (A : Type) : Type :=
| Ok (a : A)
| Raise (e : exn).
Arguments Ok {A} a.
Arguments Raise {A} e.

(** ** Dictionaries *)

Section Dict.
Context {K V : Type} (eqb : K -> K -> bool).

Fixpoint dict_get (k : K) (d : list (K * V)) : option V :=
  match d with
  | [] => None
  | (k', v) :: r => if eqb k k' then Some v else dict_get k r
  end.

Fixpoint dict_set (k : K) (v : V) (d : list (K * V)) : list (K * V) :=
  match d with
  | [] => [(k, v)]
  | (k', v') :: r =>
      if eqb k k' then (k', v) :: r else (k', v') :: dict_set k v r
  end.

Definition dict_mem (k : K) (d : list (K * V)) : bool :=
  match dict_get k d with Some _ => true | None => false end.
End Dict.

(** A dictionary whose keys are [str]: a JSON object, a [DataSet]. *)
Abbreviation sget := (dict_get String.eqb).
Abbreviation sset := (dict_set String.eqb).

(** A key of the vehicle store: a hashable value up to Python's [==],
    under which [True] and [1] (and [False] and [0]) are one key. *)
Inductive pykey : Type :=
| KNone
| KInt (n : Z)
| KStr (s : string).

Definition pykey_eqb (a b : pykey) : bool :=
  match a, b with
  | KNone, KNone => true
  | KInt n, KInt m => Z.eqb n m
  | KStr s, KStr t => String.eqb s t
  | _, _ => false
  end.

Abbreviation kget := (dict_get pykey_eqb).
Abbreviation kset := (dict_set pykey_eqb).

(** [DataSet]: one vehicle's view, open at the top level. *)
Definition DataSet : Type := list (string * json).

(** [DataStore]: the dictionary [datastore] of [get_handler]. *)
Definition DataStore : Type := list (pykey * DataSet).

(** ** Operators on values *)

Definition int_of_bool (b : bool) : Z := if b then 1 else 0.

(** [hash(j)], as far as a dictionary needs it. *)
Definition py_hash (j : json) : result pykey :=
  match j with
  | JNull => Ok KNone
  | JBool b => Ok (KInt (int_of_bool b))
  | JInt n => Ok (KInt n)
  | JStr s => Ok (KStr s)
  | JList _ | JDict _ => Raise TypeError
  end.

(** [l[n]] for a [list]: a negative index counts from the end. *)
Definition list_index {A : Type} (l : list A) (n : Z) : result A :=
  let len := Z.of_nat (length l) in
  let i := if n <? 0 then n + len else n in
  if (i <? 0) || (len <=? i) then Raise IndexError
  else match nth_error l (Z.to_nat i) with
       | Some x => Ok x
       | None => Raise IndexError
       end.

(** [c[i]].  Indexing a [str] yields one byte of its encoding, which is
    the character for ASCII text. *)
Definition py_getitem (c i : json) : result json :=
  match c with
  | JDict d =>
      match i with
      | JStr k => match sget k d with Some v => Ok v | None => Raise KeyError end
      | JList _ | JDict _ => Raise TypeError
      | _ => Raise KeyError
      end
  | JList l =>
      match i with
      | JInt n => list_index l n
      | JBool b => list_index l (int_of_bool b)
      | _ => Raise TypeError
      end
  | JStr s =>
      match i with
      | JInt n =>
          match list_index (list_ascii_of_string s) n with
          | Ok a => Ok (JStr (String a EmptyString))
          | Raise e => Raise e
          end
      | JBool b =>
          match list_index (list_ascii_of_string s) (int_of_bool b) with
          | Ok a => Ok (JStr (String a EmptyString))
          | Raise e => Raise e
          end
      | _ => Raise TypeError
      end
  | _ => Raise TypeError
  end.

(** [c["k"]] with a literal key. *)
Definition getitem (c : json) (k : string) : result json := py_getitem c (JStr k).

(** The values a [for x in c] visits. *)
Definition py_iter (c : json) : result (list json) :=
  match c with
  | JList l => Ok l
  | JDict d => Ok (map (fun kv => JStr (fst kv)) d)
  | JStr s => Ok (map (fun a => JStr (String a EmptyString)) (list_ascii_of_string s))
  | _ => Raise TypeError
  end.

(** [j == "s"] and [j != "s"] against a literal. *)
Definition eq_str (j : json) (s : string) : bool :=
  match j with JStr t => String.eqb t s | _ => false end.

(** ["k" in c] with a literal. *)
Definition py_contains (k : string) (c : json) : result bool :=
  match c with
  | JDict d => Ok (dict_mem String.eqb k d)
  | JList l => Ok (existsb (fun x => eq_str x k) l)
  | JStr s => Ok (is_substring k s)
  | _ => Raise TypeError
  end.

(** [j // 1000]; a [bool] is an [int]. *)
Definition floordiv_1000 (j : json) : result json :=
  match j with
  | JInt n => Ok (JInt (n / 1000))
  | JBool b => Ok (JInt (int_of_bool b / 1000))
  | _ => Raise TypeError
  end.

(** [j.encode()]. *)
Definition encode (j : json) : result string :=
  match j with JStr s => Ok s | _ => Raise AttributeError end.

(** The key [field] of [stored[field] = v] as a [str].  There [field]
    runs over the keys of a JSON object, which are [str]. *)
Definition field_name (field : json) : result string :=
  match field with JStr s => Ok s | _ => Raise TypeError end.

(** ["..." + k + "..."] needs a [str] in the middle. *)
Definition concat_key (pre : string) (k : pykey) (post : string) : result string :=
  match k with KStr s => Ok (pre ++ s ++ post) | _ => Raise TypeError end.

(** ** The standard library the handler calls *)

Class Library : Type := {
  (** [json.loads(data)] *)
  json_loads : string -> result json;
  (** [json.dumps(obj)] *)
  json_dumps : json -> string;
  (** [hmac.new(key, msg, hashlib.sha256).hexdigest()] *)
  hmac_sha256_hexdigest : string -> string -> string;
  (** [int(s)] for a [str] *)
  py_int : string -> result Z;
  (** [repr(j)] for a [list] or a [dict] *)
  py_repr : json -> string
}.

(** [f"{j}"], that is [str(j)]. *)
Definition py_str `{Library} (j : json) : string :=
  match j with
  | JNull => "None"
  | JBool true => "True"
  | JBool false => "False"
  | JInt n => str_of_int n
  | JStr s => s
  | JList _ | JDict _ => py_repr j
  end.

(** ** The handler's state and its monad *)

(** A line that [send_response] or [send_header] puts in the header
    buffer.  The [Server] and [Date] lines that [send_response] adds on
    its own are left out. *)
Inductive hline : Type :=
| StatusLine (code : Z)
| HeaderLine (keyword value : string).

(** One write to the socket: the header block that [end_headers]
    flushes, or the argument of a [wfile.write]. *)
Inductive chunk : Type :=
| Head (lines : list hline)
| Data (b : string).

Record state : Type := mkState {
  headers_buffer : list hline;
  wfile : list chunk;
  datastore : DataStore
}.

Definition M (A : Type) : Type := state -> result A * state.

Definition ret {A : Type} (a : A) : M A := fun s => (Ok a, s).

Definition bind {A B : Type} (m : M A) (k : A -> M B) : M B :=
  fun s => match m s with
           | (Ok a, s') => k a s'
           | (Raise e, s') => (Raise e, s')
           end.

Definition lift {A : Type} (r : result A) : M A := fun s => (r, s).

Declare Scope py_scope.
Delimit Scope py_scope with py.
Notation "x <- m ;; k" := (bind m (fun x => k))
  (at level 61, m at next level, right associativity) : py_scope.
Notation "m ;; k" := (bind m (fun _ => k))
  (at level 61, right associativity) : py_scope.
Local Open Scope py_scope.

Fixpoint for_each {A : Type} (l : list A) (body : A -> M unit) : M unit :=
  match l with
  | [] => ret tt
  | x :: r => body x ;; for_each r body
  end.

(** [http.server.BaseHTTPRequestHandler], for a request that is not
    HTTP/0.9 (a POST never is): [send_response] and [send_header] append
    to [_headers_buffer], [end_headers] writes the buffer to [wfile] and
    empties it. *)
Definition send_response (code : Z) : M unit :=
  fun s => (Ok tt, mkState (headers_buffer s ++ [StatusLine code]) (wfile s) (datastore s)).

Definition send_header (keyword value : string) : M unit :=
  fun s => (Ok tt, mkState (headers_buffer s ++ [HeaderLine keyword value]) (wfile s) (datastore s)).

Definition end_headers : M unit :=
  fun s => (Ok tt, mkState [] (wfile s ++ [Head (headers_buffer s)]) (datastore s)).

Definition wfile_write (b : string) : M unit :=
  fun s => (Ok tt, mkState (headers_buffer s) (wfile s ++ [Data b]) (datastore s)).

(** [key in datastore], [datastore[key] = ds] and, for [stored] an alias
    of [datastore[key]], [stored[field] = v]. *)
Definition datastore_contains (key : pykey) : M bool :=
  fun s => (Ok (dict_mem pykey_eqb key (datastore s)), s).

Definition datastore_setitem (key : pykey) (ds : DataSet) : M unit :=
  fun s => (Ok tt, mkState (headers_buffer s) (wfile s) (kset key ds (datastore s))).

Definition stored_setitem (key : pykey) (field : string) (v : json) : M unit :=
  fun s => match kget key (datastore s) with
           | Some stored =>
               (Ok tt, mkState (headers_buffer s) (wfile s)
                               (kset key (sset field v stored) (datastore s)))
           | None => (Raise KeyError, s)
           end.

(** The pairs [(instance, datastore[instance])] that
    [for instance in datastore] visits, in insertion order. *)
Definition datastore_items : M DataStore :=
  fun s => (Ok (datastore s), s).

(** What the handler sees of a request: [self.headers], and what
    [self.rfile.read(n)] returns. *)
Record request : Type := mkRequest {
  headers : list (string * string);
  rfile_read : Z -> result string
}.

(** [self.headers[name]]: the first header of that name, whatever its
    case, or [None]. *)
Fixpoint headers_get (name : string) (hs : list (string * string)) : option string :=
  match hs with
  | [] => None
  | (k, v) :: r =>
      if String.eqb (lower k) (lower name) then Some v else headers_get name r
  end.

(** [name in self.headers]. *)
Definition headers_in (name : string) (hs : list (string * string)) : bool :=
  match headers_get name hs with Some _ => true | None => false end.

(** [h == "s"] for a header value or [None]. *)
Definition opt_eq_str (h : option string) (s : string) : bool :=
  match h with Some t => String.eqb t s | None => false end.

(** ** [MyServer] *)

Section MyServer.
Context `{Library}.

(** [amt = config["amt"].encode()] *)
Variable amt : string.

Definition weird_post : string := "{error=" ++ dq ++ "weird post" ++ dq ++ "}" ++ nl.
Definition weird_json : string := "{error=" ++ dq ++ "weird json" ++ dq ++ "}" ++ nl.
Definition mismatched_signage : string :=
  "{error=" ++ dq ++ "mismatched signage" ++ dq ++ "}" ++ nl.
Definition unknown_event : string :=
  "{error=" ++ dq ++ "ignoring unknown eventType" ++ dq ++ nl.
Definition acknowledged : string := "{" ++ dq ++ "acknowledged" ++ dq ++ ":true}".
Definition success : string := "{" ++ dq ++ "success" ++ dq ++ ":true}".

Definition fail (response : string) : M unit :=
  send_response 503 ;;
  send_header "Content-type" "application/json" ;;
  end_headers ;;
  wfile_write response.

Definition check_bail_out_early (req : request) : M bool :=
  if negb (headers_in "Content-Length" (headers req))
     || negb (headers_in "Content-Type" (headers req))
     || negb (opt_eq_str (headers_get "Content-Type" (headers req)) "application/json")
  then fail weird_post ;; ret true
  else ret false.

Definition check_bail_out_read (req : request) (data : string) : M bool :=
  match json_loads data with
  | Raise JSONDecodeError => fail weird_json ;; ret true
  | Raise e => lift (Raise e)
  | Ok _ =>
      let scsign := headers_get "SC-Signature" (headers req) in
      let bodyhash := hmac_sha256_hexdigest amt data in
      if negb (opt_eq_str scsign bodyhash)
      then fail mismatched_signage ;; ret true
      else ret false
  end.

Definition gauges : list (string * string) :=
  [ ("tractionbattery-stateofcharge", "stateofcharge");
    ("odometer-traveleddistance", "odometer");
    ("closure-islocked", "locked");
    ("connectivitystatus-isonline", "online");
    ("connectivitystatus-isasleep", "asleep");
    ("connectivitystatus-isdigitalkeypaired", "digitalkeypaired") ].

(** [val is False] and [val is True], one after the other. *)
Definition coerce (val : json) : json :=
  let val := match val with JBool false => JInt 0 | _ => val end in
  match val with JBool true => JInt 1 | _ => val end.

(** [write_signal], lines 196 to 223: the body of the loop, for one
    [gauge] of the table. *)
Definition write_gauge (s : json) (instance : pykey) (gauge : string * string)
  : M unit :=
  code <- lift (getitem s "code") ;;
  if negb (eq_str code (fst gauge)) then ret tt else
  body <- lift (getitem s "body") ;;
  val <- lift (getitem body "value") ;;
  let val := coerce val in
  meta <- lift (getitem s "meta") ;;
  updated <- lift (getitem meta "oemUpdatedAt") ;;
  secs <- lift (floordiv_1000 updated) ;;
  let ts := " " ++ py_str secs in
  wfile_write ("# TYPE " ++ snd gauge ++ " " ++ "gauge" ++ nl) ;;
  body <- lift (getitem s "body") ;;
  has_unit <- lift (py_contains "unit" body) ;;
  (if has_unit then
     body <- lift (getitem s "body") ;;
     unit <- lift (getitem body "unit") ;;
     wfile_write ("# UNIT " ++ snd gauge ++ " " ++ py_str unit ++ nl)
   else ret tt) ;;
  line <- lift (concat_key (snd gauge ++ "{vehicleid=" ++ dq) instance (dq ++ "} ")) ;;
  wfile_write (line ++ py_str val ++ ts ++ nl).

Definition write_signal (s : json) (instance : pykey) : M unit :=
  for_each gauges (write_gauge s instance).

(** [do_GET], lines 240 to 244: the loop [for key in ds["vehicle"]],
    with the flag [first] carried along. *)
Fixpoint vehicle_labels (vehicle : json) (keys : list json) (first : bool) : M unit :=
  match keys with
  | [] => ret tt
  | key :: r =>
      (if negb first then wfile_write ", " else ret tt) ;;
      v <- lift (py_getitem vehicle key) ;;
      wfile_write (py_str key ++ "=" ++ dq ++ py_str v ++ dq) ;;
      vehicle_labels vehicle r false
  end.

(** [ds[k]] for a [DataSet]. *)
Definition ds_getitem (ds : DataSet) (k : string) : result json :=
  match sget k ds with Some v => Ok v | None => Raise KeyError end.

(** [do_GET], lines 250 to 253: the body of [for signal in ds["signals"]]. *)
Definition signal_body (instance : pykey) (signal : json) : M unit :=
  status <- lift (getitem signal "status") ;;
  value <- lift (getitem status "value") ;;
  if negb (eq_str value "SUCCESS") then ret tt
  else write_signal signal instance.

(** [do_GET], lines 233 to 253: the body of [for instance in datastore],
    with [ds = datastore[instance]]. *)
Definition vehicle_body (entry : pykey * DataSet) : M unit :=
  let '(instance, ds) := entry in
  wfile_write ("# HELP vehicleinfo Car info" ++ nl) ;;
  wfile_write ("# TYPE vehicleinfo info" ++ nl) ;;
  wfile_write "vehicleinfo{" ;;
  vehicle <- lift (ds_getitem ds "vehicle") ;;
  keys <- lift (py_iter vehicle) ;;
  vehicle_labels vehicle keys true ;;
  wfile_write ("} 1" ++ nl) ;;
  signals <- lift (ds_getitem ds "signals") ;;
  signals <- lift (py_iter signals) ;;
  for_each signals (signal_body instance).

Definition do_GET : M unit :=
  send_response 200 ;;
  send_header "Content-type" "text/plain; charset=utf-8" ;;
  end_headers ;;
  store <- datastore_items ;;
  for_each store vehicle_body.

(** [int(self.headers["Content-Length"])] *)
Definition content_length_of (req : request) : result Z :=
  match headers_get "Content-Length" (headers req) with
  | Some v => py_int v
  | None => Raise TypeError
  end.

(** [do_POST], lines 301 to 314: the merge of a [VEHICLE_STATE] event.
    [stored] is [datastore[vid]] itself, not a copy: an assignment to
    [stored[key]] is an assignment in the store. *)
Definition vehicle_state (parsed : json) : M unit :=
  data <- lift (getitem parsed "data") ;;
  vehicle <- lift (getitem data "vehicle") ;;
  vid <- lift (getitem vehicle "id") ;;
  key <- lift (py_hash vid) ;;
  known <- datastore_contains key ;;
  (if known then ret tt
   else
     data <- lift (getitem parsed "data") ;;
     signals <- lift (getitem data "signals") ;;
     data <- lift (getitem parsed "data") ;;
     vehicle <- lift (getitem data "vehicle") ;;
     datastore_setitem key [("signals", signals); ("vehicle", vehicle)]) ;;
  data <- lift (getitem parsed "data") ;;
  fields <- lift (py_iter data) ;;
  for_each fields (fun field =>
    data <- lift (getitem parsed "data") ;;
    v <- lift (py_getitem data field) ;;
    name <- lift (field_name field) ;;
    stored_setitem key name v) ;;
  wfile_write success.

(** [do_POST], lines 278 to 314: the dispatch on [eventType]. *)
Definition dispatch (parsed : json) : M unit :=
  event <- lift (getitem parsed "eventType") ;;
  if eq_str event "VERIFY" then
    data <- lift (getitem parsed "data") ;;
    challenge <- lift (getitem data "challenge") ;;
    message <- lift (encode challenge) ;;
    let resp := hmac_sha256_hexdigest amt message in
    wfile_write (json_dumps (JDict [("challenge", JStr resp)]))
  else
  event <- lift (getitem parsed "eventType") ;;
  if eq_str event "VEHICLE_ERROR" then
    wfile_write acknowledged
  else
  event <- lift (getitem parsed "eventType") ;;
  if negb (eq_str event "VEHICLE_STATE") then
    fail unknown_event
  else
  vehicle_state parsed.

Definition do_POST (req : request) : M unit :=
  bail <- check_bail_out_early req ;;
  if bail then ret tt else
  content_length <- lift (content_length_of req) ;;
  post_data <- lift (rfile_read req content_length) ;;
  bail <- check_bail_out_read req post_data ;;
  if bail then ret tt else
  parsed <- lift (json_loads post_data) ;;
  send_response 200 ;;
  send_header "Content-type" "application/json" ;;
  end_headers ;;
  dispatch parsed.

(** One request on a new handler object: empty header buffer, nothing
    written yet, the store as the previous requests left it. *)
Definition handle (m : M unit) (store : DataStore) : result unit * state :=
  m (mkState [] [] store).
End MyServer.

(** ** A library to run the handler with

    The handler is stated over any [Library].  To run it on a request,
    here is one written after CPython's: HMAC-SHA256 in full, and
    [json.loads], [json.dumps], [int] and [repr] for ASCII text.  Where
    a document holds a float, a [\u] escape, [NaN] or an [Infinity], or
    a byte outside 1..127, [Json.loads] answers [OutsideModel]. *)

Module Hashlib.
Definition wrap (x : Z) : Z := x mod 2 ^ 32.
Definition rotr (n x : Z) : Z :=
  Z.lor (Z.shiftr x n) (wrap (Z.shiftl x (32 - n))).

Definition big_sigma0 x := Z.lxor (rotr 2 x) (Z.lxor (rotr 13 x) (rotr 22 x)).
Definition big_sigma1 x := Z.lxor (rotr 6 x) (Z.lxor (rotr 11 x) (rotr 25 x)).
Definition small_sigma0 x := Z.lxor (rotr 7 x) (Z.lxor (rotr 18 x) (Z.shiftr x 3)).
Definition small_sigma1 x := Z.lxor (rotr 17 x) (Z.lxor (rotr 19 x) (Z.shiftr x 10)).
Definition choose x y z := Z.lxor (Z.land x y) (Z.land (Z.lxor x (2 ^ 32 - 1)) z).
Definition majority x y z := Z.lxor (Z.land x y) (Z.lxor (Z.land x z) (Z.land y z)).

(** The first 64 primes, by trial division. *)
Definition is_prime (n : nat) : bool :=
  forallb (fun d => negb (Nat.eqb (Nat.modulo n d) 0)) (seq 2 (n - 2)).
Definition primes : list Z :=
  map Z.of_nat (filter is_prime (seq 2 310)).

(** The integer cube root of [n], for [n < 2 ^ 108]. *)
Definition cube_root (n : Z) : Z :=
  fold_left (fun r i => let c := r + 2 ^ Z.of_nat i in
                        if c * c * c <=? n then c else r)
            (rev (seq 0 36)) 0.

(** The round constants: the first 32 bits of the fractional part of
    the cube root of each prime; the initial state: the same of the
    square root of the first eight. *)
Definition round_constants : list Z :=
  Eval vm_compute in map (fun p => wrap (cube_root (p * 2 ^ 96))) primes.
Definition initial_state : list Z :=
  Eval vm_compute in map (fun p => wrap (Z.sqrt (p * 2 ^ 64))) (firstn 8 primes).

Definition word_at (l : list Z) (i : nat) : Z := nth i l 0.

(** One round: the state [a..h], the sixteen pending schedule words. *)
Definition round (sw : list Z * list Z) (k : Z) : list Z * list Z :=
  let (st, w) := sw in
  let a := word_at st 0 in let b := word_at st 1 in
  let c := word_at st 2 in let d := word_at st 3 in
  let e := word_at st 4 in let f := word_at st 5 in
  let g := word_at st 6 in let h := word_at st 7 in
  let t1 := h + big_sigma1 e + choose e f g + k + word_at w 0 in
  let t2 := big_sigma0 a + majority a b c in
  let next := wrap (small_sigma1 (word_at w 14) + word_at w 9
                    + small_sigma0 (word_at w 1) + word_at w 0) in
  ([wrap (t1 + t2); a; b; c; wrap (d + t1); e; f; g], (tl w ++ [next])%list).

Definition compress (st : list Z) (block : list Z) : list Z :=
  let out := fst (fold_left round round_constants (st, block)) in
  map (fun xy => wrap (fst xy + snd xy)) (combine st out).

Fixpoint be_words (fuel : nat) (bytes : list Z) : list Z :=
  match fuel, bytes with
  | S n, a :: b :: c :: d :: r =>
      (((a * 256 + b) * 256 + c) * 256 + d) :: be_words n r
  | _, _ => []
  end.

Fixpoint blocks (fuel : nat) (words : list Z) : list (list Z) :=
  match fuel, words with
  | S n, _ :: _ => firstn 16 words :: blocks n (skipn 16 words)
  | _, _ => []
  end.

Definition be_bytes (n : nat) (x : Z) : list Z :=
  map (fun i => (Z.shiftr x (8 * Z.of_nat i)) mod 256) (rev (seq 0 n)).

Definition pad (msg : list Z) : list Z :=
  let len := Z.of_nat (length msg) in
  let zeros := Z.to_nat ((55 - len) mod 64) in
  (msg ++ [128] ++ repeat 0 zeros ++ be_bytes 8 (8 * len))%list.

Definition sha256 (msg : list Z) : list Z :=
  let padded := pad msg in
  let words := be_words (length padded) padded in
  let st := fold_left compress (blocks (length words) words) initial_state in
  flat_map (be_bytes 4) st.

Definition hmac_sha256 (key msg : list Z) : list Z :=
  let key := if 64 <? Z.of_nat (length key) then sha256 key else key in
  let key := (key ++ repeat 0 (64 - length key))%list in
  let inner := sha256 (map (Z.lxor 54) key ++ msg)%list in
  sha256 (map (Z.lxor 92) key ++ inner)%list.

Definition bytes_of (s : string) : list Z :=
  map (fun a => Z.of_nat (nat_of_ascii a)) (list_ascii_of_string s).

Fixpoint hex (bytes : list Z) : string :=
  match bytes with
  | [] => EmptyString
  | b :: r =>
      String (hex_digit (Z.to_nat (b / 16)))
             (String (hex_digit (Z.to_nat (b mod 16))) (hex r))
  end.

Definition hexdigest (key msg : string) : string :=
  hex (hmac_sha256 (bytes_of key) (bytes_of msg)).
End Hashlib.

Module Json.
Local Open Scope char_scope.

Inductive parse (A : Type) : Type :=
| Parsed (a : A) (rest : list ascii)
| Bad (e : exn).
Arguments Parsed {A} a rest.
Arguments Bad {A} e.

Definition is_ws (c : ascii) : bool :=
  Ascii.eqb c " " || Ascii.eqb c "009" || Ascii.eqb c "010" || Ascii.eqb c "013".

Fixpoint skip_ws (s : list ascii) : list ascii :=
  match s with
  | c :: r => if is_ws c then skip_ws r else s
  | [] => []
  end.

(** The characters of a string after its opening quote, in reverse in
    [acc], up to the closing quote. *)
Fixpoint string_body (s : list ascii) (acc : list ascii) : parse string :=
  match s with
  | [] => Bad JSONDecodeError
  | "034" :: r => Parsed (string_of_list_ascii (rev acc)) r
  | "\" :: e :: r =>
      if Ascii.eqb e "034" then string_body r ("034" :: acc)
      else if Ascii.eqb e "\" then string_body r ("\" :: acc)
      else if Ascii.eqb e "/" then string_body r ("/" :: acc)
      else if Ascii.eqb e "b" then string_body r ("008" :: acc)
      else if Ascii.eqb e "f" then string_body r ("012" :: acc)
      else if Ascii.eqb e "n" then string_body r ("010" :: acc)
      else if Ascii.eqb e "r" then string_body r ("013" :: acc)
      else if Ascii.eqb e "t" then string_body r ("009" :: acc)
      else if Ascii.eqb e "u" then Bad OutsideModel
      else Bad JSONDecodeError
  | c :: r =>
      if Nat.ltb (nat_of_ascii c) 32 then Bad JSONDecodeError
      else string_body r (c :: acc)
  end.

Fixpoint digits (s : list ascii) (acc : Z) : Z * list ascii :=
  match s with
  | c :: r => if is_digit c then digits r (10 * acc + digit_value c) else (acc, s)
  | [] => (acc, [])
  end.

(** What follows the integer part decides between an [int] and a
    [float]. *)
Definition after_int (n : Z) (rest : list ascii) : parse json :=
  match rest with
  | "." :: d :: _ => if is_digit d then Bad OutsideModel else Parsed (JInt n) rest
  | "e" :: d :: _ | "E" :: d :: _ =>
      if is_digit d then Bad OutsideModel
      else match rest with
           | _ :: _ :: d' :: _ =>
               if (Ascii.eqb d "+" || Ascii.eqb d "-") && is_digit d'
               then Bad OutsideModel else Parsed (JInt n) rest
           | _ => Parsed (JInt n) rest
           end
  | _ => Parsed (JInt n) rest
  end.

Definition number (sign : Z) (s : list ascii) : parse json :=
  match s with
  | "0" :: r => after_int 0 r
  | c :: r =>
      if is_digit c then let (n, rest) := digits s 0 in after_int (sign * n) rest
      else Bad JSONDecodeError
  | [] => Bad JSONDecodeError
  end.

Definition starts_with (word : string) (s : list ascii) : option (list ascii) :=
  let w := list_ascii_of_string word in
  if String.eqb (string_of_list_ascii (firstn (length w) s)) word
  then Some (skipn (length w) s) else None.

Definition literal (s : list ascii) : parse json :=
  match starts_with "null" s, starts_with "true" s, starts_with "false" s with
  | Some r, _, _ => Parsed JNull r
  | _, Some r, _ => Parsed (JBool true) r
  | _, _, Some r => Parsed (JBool false) r
  | _, _, _ =>
      match starts_with "NaN" s, starts_with "Infinity" s, starts_with "-Infinity" s with
      | None, None, None => Bad JSONDecodeError
      | _, _, _ => Bad OutsideModel
      end
  end.

Fixpoint value (fuel : nat) (s : list ascii) : parse json :=
  match fuel with
  | O => Bad OutsideModel
  | S n =>
      match s with
      | "034" :: r =>
          match string_body r [] with
          | Parsed t rest => Parsed (JStr t) rest
          | Bad e => Bad e
          end
      | "{" :: r =>
          match skip_ws r with
          | "}" :: rest => Parsed (JDict []) rest
          | r' => members n r' []
          end
      | "[" :: r =>
          match skip_ws r with
          | "]" :: rest => Parsed (JList []) rest
          | r' => elements n r' []
          end
      | "-" :: r =>
          match r with
          | "I" :: _ => literal s
          | _ => number (-1) r
          end
      | c :: _ => if is_digit c then number 1 s else literal s
      | [] => Bad JSONDecodeError
      end
  end
with members (fuel : nat) (s : list ascii) (acc : list (string * json))
     : parse json :=
  match fuel with
  | O => Bad OutsideModel
  | S n =>
      match s with
      | "034" :: r =>
          match string_body r [] with
          | Parsed k rest =>
              match skip_ws rest with
              | ":" :: rest =>
                  match value n (skip_ws rest) with
                  | Parsed v rest =>
                      let acc := sset k v acc in
                      match skip_ws rest with
                      | "}" :: rest => Parsed (JDict acc) rest
                      | "," :: rest => members n (skip_ws rest) acc
                      | _ => Bad JSONDecodeError
                      end
                  | Bad e => Bad e
                  end
              | _ => Bad JSONDecodeError
              end
          | Bad e => Bad e
          end
      | _ => Bad JSONDecodeError
      end
  end
with elements (fuel : nat) (s : list ascii) (acc : list json) : parse json :=
  match fuel with
  | O => Bad OutsideModel
  | S n =>
      match value n s with
      | Parsed v rest =>
          match skip_ws rest with
          | "]" :: rest => Parsed (JList (rev (v :: acc))) rest
          | "," :: rest => elements n (skip_ws rest) (v :: acc)
          | _ => Bad JSONDecodeError
          end
      | Bad e => Bad e
      end
  end.

Definition ascii_only (s : list ascii) : bool :=
  forallb (fun c => let n := nat_of_ascii c in Nat.leb 1 n && Nat.leb n 127) s.

Definition loads (data : string) : result json :=
  let s := list_ascii_of_string data in
  if negb (ascii_only s) then Raise OutsideModel
  else match value (2 * length s + 2) (skip_ws s) with
       | Parsed v rest =>
           match skip_ws rest with
           | [] => Ok v
           | _ => Raise JSONDecodeError
           end
       | Bad e => Raise e
       end.

(** [ensure_ascii] escaping of one character. *)
Definition escape_char (c : ascii) : string :=
  let n := nat_of_ascii c in
  if Ascii.eqb c "034" then String "\" (String "034" EmptyString)
  else if Ascii.eqb c "\" then "\\"
  else if Nat.eqb n 8 then "\b"
  else if Nat.eqb n 9 then "\t"
  else if Nat.eqb n 10 then "\n"
  else if Nat.eqb n 12 then "\f"
  else if Nat.eqb n 13 then "\r"
  else if Nat.ltb n 32 || Nat.eqb n 127
       then ("\u00" ++ String (hex_digit (n / 16))
                      (String (hex_digit (n mod 16)) EmptyString))%string
  else String c EmptyString.

Definition dumps_str (s : string) : string :=
  (dq ++ String.concat EmptyString (map escape_char (list_ascii_of_string s)) ++ dq)%string.

Fixpoint dumps (j : json) : string :=
  match j with
  | JNull => "null"
  | JBool true => "true"
  | JBool false => "false"
  | JInt n => str_of_int n
  | JStr s => dumps_str s
  | JList l => "[" ++ String.concat ", " (map dumps l) ++ "]"
  | JDict d =>
      "{" ++ String.concat ", "
               (map (fun kv => dumps_str (fst kv) ++ ": " ++ dumps (snd kv)) d) ++ "}"
  end%string.
End Json.

Module Builtins.
Local Open Scope char_scope.

(** The white space that [int] strips. *)
Definition is_space (c : ascii) : bool :=
  let n := nat_of_ascii c in
  Nat.eqb n 32 || (Nat.leb 9 n && Nat.leb n 13) || (Nat.leb 28 n && Nat.leb n 31).

Fixpoint lstrip (s : list ascii) : list ascii :=
  match s with
  | c :: r => if is_space c then lstrip r else s
  | [] => []
  end.

Definition strip (s : list ascii) : list ascii := rev (lstrip (rev (lstrip s))).

(** Digits, with single underscores between them. *)
Fixpoint int_digits (s : list ascii) (acc : Z) (after_digit : bool) : result Z :=
  match s with
  | [] => if after_digit then Ok acc else Raise ValueError
  | c :: r =>
      if is_digit c then int_digits r (10 * acc + digit_value c) true
      else if Ascii.eqb c "_" && after_digit then int_digits r acc false
      else Raise ValueError
  end.

Definition int (s : string) : result Z :=
  match strip (list_ascii_of_string s) with
  | "-" :: r => match int_digits r 0 false with Ok n => Ok (- n) | Raise e => Raise e end
  | "+" :: r => int_digits r 0 false
  | r => int_digits r 0 false
  end.

Definition join (sep : string) (l : list string) : string := String.concat sep l.

(** [repr] of a [str]: single quotes unless it holds one and no
    double quote. *)
Definition repr_char (quote c : ascii) : string :=
  let n := nat_of_ascii c in
  if Ascii.eqb c "\" then "\\"
  else if Ascii.eqb c quote then String "\" (String c EmptyString)
  else if Nat.eqb n 9 then "\t"
  else if Nat.eqb n 10 then "\n"
  else if Nat.eqb n 13 then "\r"
  else if Nat.ltb n 32 || Nat.eqb n 127
       then String "\" (String "x" (String (hex_digit (n / 16))
                                           (String (hex_digit (n mod 16)) EmptyString)))
  else String c EmptyString.

Definition repr_str (s : string) : string :=
  let cs := list_ascii_of_string s in
  let quote := if existsb (Ascii.eqb "039") cs && negb (existsb (Ascii.eqb "034") cs)
               then "034" else "039" in
  (String quote EmptyString ++ join EmptyString (map (repr_char quote) cs)
     ++ String quote EmptyString)%string.

Fixpoint repr (j : json) : string :=
  match j with
  | JNull => "None"
  | JBool true => "True"
  | JBool false => "False"
  | JInt n => str_of_int n
  | JStr s => repr_str s
  | JList l => "[" ++ join ", " (map repr l) ++ "]"
  | JDict d =>
      "{" ++ join ", " (map (fun kv => repr_str (fst kv) ++ ": " ++ repr (snd kv)) d) ++ "}"
  end%string.
End Builtins.

#[export] Instance cpython : Library := {
  json_loads := Json.loads;
  json_dumps := Json.dumps;
  hmac_sha256_hexdigest := Hashlib.hexdigest;
  py_int := Builtins.int;
  py_repr := Builtins.repr
}.

(** ** The exposition document of the specification *)

Section Exposition.
Context `{Library}.

(** One sample of a gauge. *)
Record sample : Type := mkSample {
  metric : string;
  sample_value : json;
  sample_unit : option json;
  timestamp : Z
}.

(** Boolean [true] becomes 1 and [false] 0; any other value is kept. *)
Definition coerced (v : json) : json :=
  match v with
  | JBool true => JInt 1
  | JBool false => JInt 0
  | _ => v
  end.

(** The sample a signal gives rise to: [Some (Some smp)] when its
    status is SUCCESS and its code is in the gauge table, [Some None]
    when it is to be skipped, [None] when the signal lacks a field
    that decides. *)
Definition sample_of (s : json) : option (option sample) :=
  match s with
  | JDict d =>
      match sget "status" d with
      | Some (JDict st) =>
          match sget "value" st with
          | Some sv =>
              if negb (eq_str sv "SUCCESS") then Some None else
              match sget "code" d with
              | Some (JStr code) =>
                  match sget code gauges with
                  | None => Some None
                  | Some name =>
                      match sget "body" d, sget "meta" d with
                      | Some (JDict body), Some (JDict meta) =>
                          match sget "value" body, sget "oemUpdatedAt" meta with
                          | Some v, Some (JInt ms) =>
                              Some (Some (mkSample name (coerced v)
                                                   (sget "unit" body) (ms / 1000)))
                          | _, _ => None
                          end
                      | _, _ => None
                      end
                  end
              | Some _ => Some None
              | None => None
              end
          | None => None
          end
      | _ => None
      end
  | _ => None
  end.

(** [# TYPE <name> gauge], [# UNIT <name> <unit>] when there is a
    unit, and [<name>{vehicleid="<id>"} <value> <timestamp>]. *)
Definition sample_lines (id : string) (smp : sample) : list string :=
  ["# TYPE " ++ metric smp ++ " gauge" ++ nl]
  ++ match sample_unit smp with
     | Some u => ["# UNIT " ++ metric smp ++ " " ++ py_str u ++ nl]
     | None => []
     end
  ++ [metric smp ++ "{vehicleid=" ++ dq ++ id ++ dq ++ "} "
        ++ py_str (sample_value smp) ++ " " ++ str_of_int (timestamp smp) ++ nl].

Definition signal_lines (id : string) (o : option sample) : list string :=
  match o with
  | Some smp => sample_lines id smp
  | None => []
  end.

(** No key twice, as in every Python [dict]. *)
Fixpoint unique_keys {V : Type} (d : list (string * V)) : bool :=
  match d with
  | [] => true
  | (k, _) :: r => negb (dict_mem String.eqb k r) && unique_keys r
  end.

(** The labels of [vehicleinfo], separated by [", "]. *)
Fixpoint labels (vehicle : list (string * json)) (first : bool) : list string :=
  match vehicle with
  | [] => []
  | (k, v) :: r =>
      (if first then [] else [", "])
      ++ [k ++ "=" ++ dq ++ py_str v ++ dq] ++ labels r false
  end.

Definition info_lines (vehicle : list (string * json)) : list string :=
  ["# HELP vehicleinfo Car info" ++ nl; "# TYPE vehicleinfo info" ++ nl; "vehicleinfo{"]
  ++ labels vehicle true ++ ["} 1" ++ nl].

(** [Some l] when every element of [l0] has an image. *)
Fixpoint all_some {A B : Type} (f : A -> option B) (l0 : list A) : option (list B) :=
  match l0 with
  | [] => Some []
  | x :: r =>
      match f x, all_some f r with
      | Some y, Some l => Some (y :: l)
      | _, _ => None
      end
  end.

(** The part of the document for one vehicle. *)
Definition vehicle_document (entry : pykey * DataSet) : option (list string) :=
  match entry with
  | (KStr id, ds) =>
      match sget "vehicle" ds, sget "signals" ds with
      | Some (JDict vehicle), Some (JList signals) =>
          if unique_keys vehicle then
            match all_some sample_of signals with
            | Some samples =>
                Some (info_lines vehicle ++ flat_map (signal_lines id) samples)%list
            | None => None
            end
          else None
      | _, _ => None
      end
  | _ => None
  end.

(** The document for a store snapshot, vehicle after vehicle. *)
Definition document (store : DataStore) : option (list string) :=
  match all_some vehicle_document store with
  | Some parts => Some (concat parts)
  | None => None
  end.
End Exposition.

(** ** The vocabulary of the properties *)

(** The header blocks the handler sends. *)
Definition json_head : chunk :=
  Head [StatusLine 200; HeaderLine "Content-type" "application/json"].
Definition fail_head : chunk :=
  Head [StatusLine 503; HeaderLine "Content-type" "application/json"].
Definition text_head : chunk :=
  Head [StatusLine 200; HeaderLine "Content-type" "text/plain; charset=utf-8"].

(** The status a client reads off the connection: that of the first
    status line written. *)
Definition delivered_status (w : list chunk) : option Z :=
  match w with
  | Head (StatusLine code :: _) :: _ => Some code
  | _ => None
  end.

(** The error bodies of the interface table, [{"error":"<message>"}]. *)
Definition error_document (message : string) : string :=
  "{" ++ dq ++ "error" ++ dq ++ ":" ++ dq ++ message ++ dq ++ "}".

(** The state after some more writes of data. *)
Definition emit (st : state) (l : list string) : state :=
  mkState (headers_buffer st) (wfile st ++ map Data l) (datastore st).

(** [stored] after [stored[key] = data[key]] for the keys [l] of the
    object [d], and after the whole loop [for key in data]. *)
Definition overwrite (d : list (string * json)) (l : list string) (stored : DataSet)
  : DataSet :=
  fold_left (fun st k => match sget k d with Some v => sset k v st | None => st end)
            l stored.

Definition merged (d : list (string * json)) (stored : DataSet) : DataSet :=
  overwrite d (map fst d) stored.

(** The name a gauge table gives a code. *)
Definition gauge_name (gs : list (string * string)) (code : json) : option string :=
  match code with JStr c => sget c gs | _ => None end.

(** The payload [parsed] has the data object [d], which names the
    vehicle [key]. *)
Definition names (parsed : json) (d : list (string * json)) (key : pykey) : Prop :=
  getitem parsed "data" = Ok (JDict d)
  /\ exists vehicle vid,
       sget "vehicle" d = Some vehicle
       /\ getitem vehicle "id" = Ok vid /\ py_hash vid = Ok key.

(** The entry a merge starts from: the stored one or, for a vehicle not
    seen before, [DataSet(signals=..., vehicle=...)]. *)
Definition start_entry (d : list (string * json)) (key : pykey) (store : DataStore)
  : option DataSet :=
  match kget key store with
  | Some stored => Some stored
  | None =>
      match sget "signals" d, sget "vehicle" d with
      | Some signals, Some vehicle => Some [("signals", signals); ("vehicle", vehicle)]
      | _, _ => None
      end
  end.

(** What a request can do to the store: nothing, or the merge of a
    state event into the entry of the vehicle it names. *)
Definition store_step (store store' : DataStore) : Prop :=
  store' = store
  \/ exists parsed d key stored,
      names parsed d key
      /\ start_entry d key store = Some stored
      /\ store' = kset key (merged d stored) store.

(** Every id of the store is the [vehicle.id] of its entry, equal as
    Python compares the keys of a [dict]. *)
Definition key_consistent (store : DataStore) : Prop :=
  forall key ds,
    kget key store = Some ds ->
    exists vehicle vid,
      sget "vehicle" ds = Some vehicle
      /\ getitem vehicle "id" = Ok vid /\ py_hash vid = Ok key.

(** A computation that leaves the store alone, whatever it returns. *)
Definition keeps_store {A : Type} (m : M A) : Prop :=
  forall s, datastore (snd (m s)) = datastore s.

Section Vocabulary.
Context `{Library}.

(** [amt = config["amt"].encode()] *)
Variable amt : string.

(** The header check lets the request through. *)
Definition headers_ok (req : request) : Prop :=
  headers_in "Content-Length" (headers req) = true
  /\ headers_get "Content-Type" (headers req) = Some "application/json".

(** [data] is the body that [do_POST] reads. *)
Definition body_read (req : request) (data : string) : Prop :=
  exists n, content_length_of req = Ok n /\ rfile_read req n = Ok data.

(** The request passes the header check, its body [data] parses to
    [parsed], and it carries the signature of [data] under [amt]. *)
Definition passes (req : request) (data : string) (parsed : json) : Prop :=
  headers_ok req /\ body_read req data /\ json_loads data = Ok parsed
  /\ headers_get "SC-Signature" (headers req) = Some (hmac_sha256_hexdigest amt data).

(** The request passes all checks and is a [VEHICLE_STATE] event with
    the data object [d], naming the vehicle [key]. *)
Definition state_event (req : request) (d : list (string * json)) (key : pykey)
  : Prop :=
  exists data parsed,
    passes req data parsed
    /\ getitem parsed "eventType" = Ok (JStr "VEHICLE_STATE")
    /\ names parsed d key.

(** The ways through [do_POST], from a state [s]. *)
Inductive outcome (req : request) (s : state) : result unit * state -> Prop :=
| out_headers :
    ~ headers_ok req -> outcome req s (Ok tt, snd (fail weird_post s))
| out_length e :
    headers_ok req -> content_length_of req = Raise e -> outcome req s (Raise e, s)
| out_read n e :
    headers_ok req -> content_length_of req = Ok n -> rfile_read req n = Raise e ->
    outcome req s (Raise e, s)
| out_json data :
    headers_ok req -> body_read req data -> json_loads data = Raise JSONDecodeError ->
    outcome req s (Ok tt, snd (fail weird_json s))
| out_loads data e :
    headers_ok req -> body_read req data -> json_loads data = Raise e ->
    e <> JSONDecodeError -> outcome req s (Raise e, s)
| out_signature data parsed :
    headers_ok req -> body_read req data -> json_loads data = Ok parsed ->
    headers_get "SC-Signature" (headers req) <> Some (hmac_sha256_hexdigest amt data) ->
    outcome req s (Ok tt, snd (fail mismatched_signage s))
| out_dispatch data parsed :
    passes req data parsed ->
    outcome req s
      (dispatch amt parsed
         (mkState [] (wfile s ++ [Head (headers_buffer s ++
                                          [StatusLine 200;
                                           HeaderLine "Content-type" "application/json"])])
                  (datastore s))).

(** The four ways to the FAILED outcome, each with the body that
    [fail] is given. *)
Inductive failed (req : request) : string -> Prop :=
| malformed_headers :
    ~ headers_ok req -> failed req weird_post
| malformed_body data :
    headers_ok req -> body_read req data -> json_loads data = Raise JSONDecodeError ->
    failed req weird_json
| authentication_failure data parsed :
    headers_ok req -> body_read req data -> json_loads data = Ok parsed ->
    headers_get "SC-Signature" (headers req) <> Some (hmac_sha256_hexdigest amt data) ->
    failed req mismatched_signage
| unknown_event_type data parsed event :
    passes req data parsed -> getitem parsed "eventType" = Ok event ->
    eq_str event "VERIFY" = false -> eq_str event "VEHICLE_ERROR" = false ->
    eq_str event "VEHICLE_STATE" = false ->
    failed req unknown_event.

(** The requests of a session and the store they leave. *)
Inductive http_request : Type :=
| GET
| POST (req : request).

Definition serve_one (store : DataStore) (r : http_request) : DataStore :=
  match r with
  | GET => datastore (snd (handle do_GET store))
  | POST req => datastore (snd (handle (do_POST amt req) store))
  end.

Definition serve (rs : list http_request) : DataStore :=
  fold_left serve_one rs [].

(** The merge law with nothing said about the store it starts from:
    after [req1] then [req2], the entry of [key] is [d1] overwritten
    with [d2]. *)
Definition merge_law_as_stated (store : DataStore) (req1 req2 : request)
           (d1 d2 : list (string * json)) (key : pykey) : Prop :=
  state_event req1 d1 key -> state_event req2 d2 key ->
  let r1 := handle (do_POST amt req1) store in
  let r2 := handle (do_POST amt req2) (datastore (snd r1)) in
  fst r1 = Ok tt -> fst r2 = Ok tt ->
  exists entry,
    kget key (datastore (snd r2)) = Some entry
    /\ forall k, sget k entry =
                 match sget k d2 with Some v => Some v | None => sget k d1 end.
End Vocabulary.

(** ** Requests to run *)

(** The stream of a client that sends [sent] and closes its side. *)
Definition rfile_of (sent : string) : Z -> result string :=
  fun n => if n <? -1 then Raise ValueError
           else if n =? -1 then Ok sent
           else Ok (substring 0 (Z.to_nat n) sent).

(** A POST of [body] with the given headers and a right
    [Content-Length]. *)
Definition post (extra : list (string * string)) (body : string) : request :=
  mkRequest (("Content-Length", str_of_int (Z.of_nat (String.length body))) :: extra)
            (rfile_of body).

(** A POST as the webhook sends it, signed under [secret]. *)
Definition signed_post (secret body : string) : request :=
  post [("Content-Type", "application/json");
        ("SC-Signature", Hashlib.hexdigest secret body)] body.

(** ["k": v] and [{m1, m2, ...}] in JSON text. *)
Definition member (k v : string) : string := dq ++ k ++ dq ++ ":" ++ v.
Definition object (ms : list string) : string := "{" ++ String.concat "," ms ++ "}".
Definition quoted (s : string) : string := dq ++ s ++ dq.

Definition secret : string := "s3cret".

(** The VERIFY scenario of the specification. *)
Definition verify_body : string :=
  object [member "eventType" (quoted "VERIFY");
          member "data" (object [member "challenge" (quoted "abc")])].

(** An event of a type the handler does not know. *)
Definition unknown_body : string :=
  object [member "eventType" (quoted "VEHICLE_SOLD")].

(** State events for the vehicle [v1]: a first one with a signal and a
    top-level [mode], then two that bring signals only. *)
Definition vehicle_v1 : string := object [member "id" (quoted "v1")].

Definition odometer_signal (value ms : string) : string :=
  object [member "code" (quoted "odometer-traveleddistance");
          member "status" (object [member "value" (quoted "SUCCESS")]);
          member "body" (object [member "value" value]);
          member "meta" (object [member "oemUpdatedAt" ms])].

Definition state_body (ms : list string) : string :=
  object [member "eventType" (quoted "VEHICLE_STATE"); member "data" (object ms)].

Definition state_body0 : string :=
  state_body [member "vehicle" vehicle_v1;
              member "signals" ("[" ++ odometer_signal "123" "1700000000000" ++ "]");
              member "mode" (quoted "live")].

Definition state_body1 : string :=
  state_body [member "vehicle" vehicle_v1;
              member "signals" "[]"].

Definition state_body2 : string :=
  state_body [member "vehicle" vehicle_v1;
              member "signals" ("[" ++ odometer_signal "456" "1700000060000" ++ "]")].

(** A state event for another vehicle. *)
Definition state_body_v2 : string :=
  state_body [member "vehicle" (object [member "id" (quoted "v2")]);
              member "signals" "[]"].

(** The data objects of [state_body1] and [state_body2], as parsed. *)
Definition data1 : list (string * json) :=
  [("vehicle", JDict [("id", JStr "v1")]); ("signals", JList [])].

Definition data2 : list (string * json) :=
  [("vehicle", JDict [("id", JStr "v1")]);
   ("signals",
    JList [JDict [("code", JStr "odometer-traveleddistance");
                  ("status", JDict [("value", JStr "SUCCESS")]);
                  ("body", JDict [("value", JInt 456)]);
                  ("meta", JDict [("oemUpdatedAt", JInt 1700000060000)])]])].

(** The store after the first state event for [v1], from empty. *)
Definition store_v1 : DataStore :=
  [(KStr "v1",
    [("signals",
      JList [JDict [("code", JStr "odometer-traveleddistance");
                    ("status", JDict [("value", JStr "SUCCESS")]);
                    ("body", JDict [("value", JInt 123)]);
                    ("meta", JDict [("oemUpdatedAt", JInt 1700000000000)])]]);
     ("vehicle", JDict [("id", JStr "v1")]);
     ("mode", JStr "live")])].

(** The entry of [v1] after [state_body1] and then [state_body2]. *)
Definition entry_v1 : DataSet :=
  [("signals",
    JList [JDict [("code", JStr "odometer-traveleddistance");
                  ("status", JDict [("value", JStr "SUCCESS")]);
                  ("body", JDict [("value", JInt 456)]);
                  ("meta", JDict [("oemUpdatedAt", JInt 1700000060000)])]]);
   ("vehicle", JDict [("id", JStr "v1")]);
   ("mode", JStr "live")].

(** What a GET renders of [store_v1]. *)
Definition document_v1 : list string :=
  ["# HELP vehicleinfo Car info" ++ nl;
   "# TYPE vehicleinfo info" ++ nl;
   "vehicleinfo{";
   "id=" ++ dq ++ "v1" ++ dq;
   "} 1" ++ nl;
   "# TYPE odometer gauge" ++ nl;
   "odometer{vehicleid=" ++ dq ++ "v1" ++ dq ++ "} 123 1700000000" ++ nl].

(** A store with a locked, sleeping vehicle, a failed signal and a
    signal of a code that is not in the table. *)
Definition store_flags : DataStore :=
  [(KStr "v7",
    [("signals",
      JList [JDict [("code", JStr "closure-islocked");
                    ("status", JDict [("value", JStr "SUCCESS")]);
                    ("body", JDict [("value", JBool true)]);
                    ("meta", JDict [("oemUpdatedAt", JInt 1700000000999)])];
             JDict [("code", JStr "connectivitystatus-isasleep");
                    ("status", JDict [("value", JStr "SUCCESS")]);
                    ("body", JDict [("value", JBool false); ("unit", JNull)]);
                    ("meta", JDict [("oemUpdatedAt", JInt (-1))])];
             JDict [("code", JStr "odometer-traveleddistance");
                    ("status", JDict [("value", JStr "ERROR")])];
             JDict [("code", JStr "charge-voltage");
                    ("status", JDict [("value", JStr "SUCCESS")])]]);
     ("vehicle", JDict [("id", JStr "v7"); ("year", JInt 2021)])])].

Definition document_flags : list string :=
  ["# HELP vehicleinfo Car info" ++ nl;
   "# TYPE vehicleinfo info" ++ nl;
   "vehicleinfo{";
   "id=" ++ dq ++ "v7" ++ dq; ", "; "year=" ++ dq ++ "2021" ++ dq;
   "} 1" ++ nl;
   "# TYPE locked gauge" ++ nl;
   "locked{vehicleid=" ++ dq ++ "v7" ++ dq ++ "} 1 1700000000" ++ nl;
   "# TYPE asleep gauge" ++ nl;
   "# UNIT asleep None" ++ nl;
   "asleep{vehicleid=" ++ dq ++ "v7" ++ dq ++ "} 0 -1" ++ nl].

(** ** More vocabulary *)

(** A computation that only writes data: whatever the state, it gives
    the same result and appends the same writes, and it leaves the
    header buffer and the store alone. *)
Definition uniform {A : Type} (m : M A) : Prop :=
  exists r l, forall s, m s = (r, emit s l).

(** A computation that only adds to what is written. *)
Definition grows {A : Type} (m : M A) : Prop :=
  forall s, exists l, wfile (snd (m s)) = (wfile s ++ l)%list.

(** Two stores with the same ids in the same order and, id by id, the
    same [vehicle] and the same [signals]. *)
Definition same_view (store1 store2 : DataStore) : Prop :=
  Forall2 (fun e1 e2 : pykey * DataSet =>
             fst e1 = fst e2
             /\ sget "vehicle" (snd e1) = sget "vehicle" (snd e2)
             /\ sget "signals" (snd e1) = sget "signals" (snd e2))
          store1 store2.

(** Every entry of the store has a [vehicle] and [signals]. *)
Definition entry_complete (store : DataStore) : Prop :=
  forall key ds,
    kget key store = Some ds ->
    exists vehicle signals,
      sget "vehicle" ds = Some vehicle /\ sget "signals" ds = Some signals.

(** The store after a state event with the data object [d] for the
    vehicle [key]; the store itself when the event raises. *)
Definition after_event (d : list (string * json)) (key : pykey) (store : DataStore)
  : DataStore :=
  match start_entry d key store with
  | Some stored => kset key (merged d stored) store
  | None => store
  end.

Section MoreExposition.
Context `{Library}.

(** The lines of a sample that come before the sample line. *)
Definition type_unit_lines (smp : sample) : list string :=
  ["# TYPE " ++ metric smp ++ " gauge" ++ nl]
  ++ match sample_unit smp with
     | Some u => ["# UNIT " ++ metric smp ++ " " ++ py_str u ++ nl]
     | None => []
     end.
End MoreExposition.

(** ** [setup_logger] *)

(** Where a handler writes: [logging.StreamHandler()] or
    [logging.handlers.TimedRotatingFileHandler(filename, ...)]. *)
Inductive log_target : Type :=
| StreamHandler
| TimedRotatingFileHandler (filename when : string) (backupCount : Z).

Record log_handler : Type := mkHandler {
  target : log_target;
  formatter : option string;
  handler_level : Z
}.

(** The root logger: its handlers and its level. *)
Record logger_state : Type := mkLogger {
  log_handlers : list log_handler;
  logger_level : Z
}.

(** The root logger of a fresh interpreter: no handler, level WARNING. *)
Definition root_logger : logger_state := mkLogger [] 30.

Definition setLevel_handler (level : Z) (h : log_handler) : log_handler :=
  mkHandler (target h) (formatter h) level.

Definition setFormatter (fmt : string) (h : log_handler) : log_handler :=
  mkHandler (target h) (Some fmt) (handler_level h).

Definition addHandler (h : log_handler) (lg : logger_state) : logger_state :=
  mkLogger (log_handlers lg ++ [h]) (logger_level lg).

Definition setLevel (level : Z) (lg : logger_state) : logger_state :=
  mkLogger (log_handlers lg) level.

(** [setup_logger(console_level, file_level, filename)] on the logger
    [lg].  [opened] is what opening the log file gives: the file
    handler is built after the console handler has been added, and if
    that raises, the logger stays as it is then. *)
Definition setup_logger (console_level file_level : Z) (filename : string)
           (opened : result unit) (lg : logger_state) : result unit * logger_state :=
  let h := mkHandler StreamHandler None 0 in
  let h := setLevel_handler console_level h in
  let lg := addHandler h lg in
  match opened with
  | Raise e => (Raise e, lg)
  | Ok _ =>
      let f := mkHandler (TimedRotatingFileHandler filename "midnight" 30) None 0 in
      let f := setFormatter "{asctime} - {levelname} - {message}" f in
      let f := setLevel_handler file_level f in
      let lg := addHandler f lg in
      (Ok tt, setLevel (Z.min file_level console_level) lg)
  end.

(** [logging]: the handlers that get a record of level [level] logged
    on the root logger.  A level of 0 or less is never enabled. *)
Definition handled_by (lg : logger_state) (level : Z) : list log_handler :=
  if (0 <? level) && (logger_level lg <=? level)
  then filter (fun h => handler_level h <=? level) (log_handlers lg)
  else [].

(** ** More requests to run *)

Definition error_body : string :=
  object [member "eventType" (quoted "VEHICLE_ERROR")].

(** A state event for a new vehicle that brings no signals. *)
Definition state_body_bare : string :=
  state_body [member "vehicle" (object [member "id" (quoted "v3")])].

(** A state event whose vehicle id is a number. *)
Definition state_body_7 : string :=
  state_body [member "vehicle" (object [member "id" "7"]);
              member "signals" ("[" ++ odometer_signal "5" "1000" ++ "]")].

(** [store_v1] without the top-level [mode] and with the other two keys
    in the other order. *)
Definition store_v1_plain : DataStore :=
  [(KStr "v1",
    [("vehicle", JDict [("id", JStr "v1")]);
     ("signals",
      JList [JDict [("code", JStr "odometer-traveleddistance");
                    ("status", JDict [("value", JStr "SUCCESS")]);
                    ("body", JDict [("value", JInt 123)]);
                    ("meta", JDict [("oemUpdatedAt", JInt 1700000000000)])]])])].

(** * Properties *)

(** ** Dictionaries *)

Lemma pykey_eqb_eq (a b : pykey) : pykey_eqb a b = true <-> a = b.
Proof.
  destruct a, b; simpl; split; intros E; try discriminate; try reflexivity.
  - apply Z.eqb_eq in E. now subst.
  - injection E as ->. apply Z.eqb_refl.
  - apply String.eqb_eq in E. now subst.
  - injection E as ->. apply String.eqb_refl.
Qed.

Section DictFacts.
Context {K V : Type} (eqb : K -> K -> bool).
Hypothesis eqb_eq : forall a b, eqb a b = true <-> a = b.

Lemma eqb_same k : eqb k k = true.
Proof. now apply eqb_eq. Qed.

Lemma eqb_diff a b : a <> b -> eqb a b = false.
Proof.
  intros N. destruct (eqb a b) eqn:E; [|reflexivity].
  apply eqb_eq in E. contradiction.
Qed.

Lemma dict_get_set_same k (v : V) d : dict_get eqb k (dict_set eqb k v d) = Some v.
Proof.
  induction d as [|[k' v'] r IH]; simpl.
  - now rewrite eqb_same.
  - destruct (eqb k k') eqn:E; simpl; rewrite E; [reflexivity | exact IH].
Qed.

Lemma dict_get_set_other k k' (v : V) d :
  k <> k' -> dict_get eqb k' (dict_set eqb k v d) = dict_get eqb k' d.
Proof.
  intros N. induction d as [|[k0 v0] r IH]; simpl.
  - rewrite eqb_diff; [reflexivity | congruence].
  - destruct (eqb k k0) eqn:E; simpl.
    + apply eqb_eq in E. subst k0. rewrite eqb_diff; [reflexivity | congruence].
    + now rewrite IH.
Qed.

Lemma dict_set_set k (v1 v2 : V) d :
  dict_set eqb k v2 (dict_set eqb k v1 d) = dict_set eqb k v2 d.
Proof.
  induction d as [|[k0 v0] r IH]; simpl.
  - now rewrite eqb_same.
  - destruct (eqb k k0) eqn:E; simpl; rewrite E; [reflexivity | now rewrite IH].
Qed.

Lemma dict_mem_get k (d : list (K * V)) :
  dict_mem eqb k d = false <-> dict_get eqb k d = None.
Proof. unfold dict_mem. destruct (dict_get eqb k d); split; congruence. Qed.
End DictFacts.

Lemma kget_set_same {V : Type} k (v : V) d : kget k (kset k v d) = Some v.
Proof. apply dict_get_set_same, pykey_eqb_eq. Qed.

Lemma kget_set_other {V : Type} k k' (v : V) d :
  k <> k' -> kget k' (kset k v d) = kget k' d.
Proof. apply dict_get_set_other, pykey_eqb_eq. Qed.

Lemma kset_set {V : Type} k (v1 v2 : V) d : kset k v2 (kset k v1 d) = kset k v2 d.
Proof. apply dict_set_set, pykey_eqb_eq. Qed.

Lemma sget_set_same {V : Type} k (v : V) d : sget k (sset k v d) = Some v.
Proof. apply dict_get_set_same, String.eqb_eq. Qed.

Lemma sget_set_other {V : Type} k k' (v : V) d :
  k <> k' -> sget k' (sset k v d) = sget k' d.
Proof. apply dict_get_set_other, String.eqb_eq. Qed.

(** ** The monad *)

Lemma bind_lift_ok {A B} (r : result A) (a : A) (k : A -> M B) s :
  r = Ok a -> bind (lift r) k s = k a s.
Proof. intros ->. reflexivity. Qed.

Lemma bind_lift_raise {A B} (r : result A) e (k : A -> M B) s :
  r = Raise e -> bind (lift r) k s = (Raise e, s).
Proof. intros ->. reflexivity. Qed.

(** ** The checks of [do_POST] *)

Section Checks.
Context `{Library} (amt : string).

Lemma fail_run response s :
  fail response s =
  (Ok tt, mkState [] (wfile s ++ [Head (headers_buffer s ++
                                         [StatusLine 503;
                                          HeaderLine "Content-type" "application/json"]);
                                  Data response]) (datastore s)).
Proof.
  unfold fail, bind, send_response, send_header, end_headers, wfile_write. simpl.
  now rewrite <- !app_assoc.
Qed.

Lemma early_ok req s : headers_ok req -> check_bail_out_early req s = (Ok false, s).
Proof.
  intros [L T]. unfold check_bail_out_early. rewrite L.
  unfold headers_in. rewrite T. simpl. reflexivity.
Qed.

Lemma early_bad req s :
  ~ headers_ok req ->
  check_bail_out_early req s = (Ok true, snd (fail weird_post s)).
Proof.
  intros N. unfold check_bail_out_early, headers_ok, headers_in in *.
  destruct (headers_get "Content-Length" (headers req)) eqn:L; cbn [negb orb];
    [|reflexivity].
  destruct (headers_get "Content-Type" (headers req)) as [t|] eqn:T;
    cbn [negb orb opt_eq_str]; [|reflexivity].
  destruct (String.eqb_spec t "application/json") as [->|D]; cbn [negb];
    [|reflexivity].
  exfalso. apply N. split; reflexivity.
Qed.

Lemma read_ok req data parsed s :
  json_loads data = Ok parsed ->
  headers_get "SC-Signature" (headers req) = Some (hmac_sha256_hexdigest amt data) ->
  check_bail_out_read amt req data s = (Ok false, s).
Proof.
  intros J S. unfold check_bail_out_read. rewrite J, S. simpl.
  now rewrite String.eqb_refl.
Qed.

Lemma read_mismatch req data parsed s :
  json_loads data = Ok parsed ->
  headers_get "SC-Signature" (headers req) <> Some (hmac_sha256_hexdigest amt data) ->
  check_bail_out_read amt req data s = (Ok true, snd (fail mismatched_signage s)).
Proof.
  intros J S. unfold check_bail_out_read. rewrite J.
  destruct (headers_get "SC-Signature" (headers req)) as [g|];
    cbn [opt_eq_str negb]; [|reflexivity].
  destruct (String.eqb_spec g (hmac_sha256_hexdigest amt data)) as [->|D];
    cbn [negb]; [congruence | reflexivity].
Qed.

Lemma read_weird_json req data s :
  json_loads data = Raise JSONDecodeError ->
  check_bail_out_read amt req data s = (Ok true, snd (fail weird_json s)).
Proof. intros J. unfold check_bail_out_read. now rewrite J. Qed.

Lemma do_POST_passes req data parsed s :
  passes amt req data parsed ->
  do_POST amt req s =
  dispatch amt parsed
    (mkState [] (wfile s ++ [Head (headers_buffer s ++
                                     [StatusLine 200;
                                      HeaderLine "Content-type" "application/json"])])
             (datastore s)).
Proof.
  intros (Hh & (n & Hn & Hr) & Hj & Hs).
  unfold do_POST. unfold bind at 1. rewrite (early_ok _ _ Hh).
  rewrite (bind_lift_ok _ _ _ _ Hn), (bind_lift_ok _ _ _ _ Hr).
  unfold bind at 1. rewrite (read_ok _ _ _ _ Hj Hs).
  rewrite (bind_lift_ok _ _ _ _ Hj).
  unfold bind, send_response, send_header, end_headers. simpl.
  now rewrite <- !app_assoc.
Qed.
End Checks.

(** ** The merge of [vehicle_state] *)

Lemma sget_in {V : Type} k (d : list (string * V)) :
  In k (map fst d) -> sget k d <> None.
Proof.
  induction d as [|[k' v] r IH]; simpl; [tauto|].
  intros [->|I].
  - now rewrite String.eqb_refl.
  - destruct (String.eqb k k'); [discriminate | now apply IH].
Qed.

Lemma sget_not_in {V : Type} k (d : list (string * V)) :
  ~ In k (map fst d) -> sget k d = None.
Proof.
  induction d as [|[k' v] r IH]; simpl; [reflexivity|].
  intros N. destruct (String.eqb_spec k k') as [->|D]; [tauto|].
  apply IH. tauto.
Qed.

Lemma sget_overwrite_out d l stored k :
  ~ In k l -> sget k (overwrite d l stored) = sget k stored.
Proof.
  unfold overwrite. revert stored.
  induction l as [|k0 l IH]; intros stored N; simpl in *; [reflexivity|].
  rewrite IH by tauto.
  destruct (sget k0 d) as [v0|]; [|reflexivity].
  apply sget_set_other. tauto.
Qed.

Lemma sget_overwrite_in d l stored k v :
  In k l -> sget k d = Some v -> sget k (overwrite d l stored) = Some v.
Proof.
  unfold overwrite. revert stored.
  induction l as [|k0 l IH]; intros stored I G; simpl in *; [tauto|].
  destruct (in_dec string_dec k l) as [I'|N]; [now apply IH|].
  destruct I as [->|I]; [|tauto].
  rewrite G. fold (overwrite d l (sset k v stored)).
  rewrite (sget_overwrite_out _ _ _ _ N). apply sget_set_same.
Qed.

(** The merge law on one entry: a key of [d] takes the value [d] gives
    it, any other key keeps the stored one. *)
Lemma sget_merged d stored k :
  sget k (merged d stored) =
  match sget k d with Some v => Some v | None => sget k stored end.
Proof.
  unfold merged.
  destruct (in_dec string_dec k (map fst d)) as [I|N].
  - destruct (sget k d) as [v|] eqn:G; [|now apply sget_in in I].
    now apply sget_overwrite_in.
  - rewrite (sget_not_in _ _ N). now apply sget_overwrite_out.
Qed.

Section Merge.
Context `{Library} (amt : string).

Lemma merge_loop parsed d key l :
  getitem parsed "data" = Ok (JDict d) ->
  (forall k, In k l -> sget k d <> None) ->
  forall s stored,
    kget key (datastore s) = Some stored ->
    for_each (map (fun k => JStr k) l)
      (fun field =>
         data <- lift (getitem parsed "data") ;;
         v <- lift (py_getitem data field) ;;
         name <- lift (field_name field) ;;
         stored_setitem key name v) s
    = (Ok tt, mkState (headers_buffer s) (wfile s)
                      (kset key (overwrite d l stored) (datastore s))).
Proof.
  intros Hd. induction l as [|k l IH]; intros Hin s stored Hs.
  - simpl. unfold ret. destruct s as [hb wf ds]. simpl in *.
    f_equal. f_equal.
    clear -Hs. induction ds as [|[k' v'] r IHr]; simpl in *; [discriminate|].
    destruct (pykey_eqb key k') eqn:E.
    + now injection Hs as ->.
    + f_equal. now apply IHr.
  - simpl map. simpl for_each. unfold bind at 1.
    rewrite (bind_lift_ok _ _ _ _ Hd).
    destruct (sget k d) as [v|] eqn:G; [|exfalso; apply (Hin k); simpl; tauto].
    unfold py_getitem at 1. rewrite G.
    unfold bind at 1, lift at 1, field_name at 1. unfold bind at 1, lift at 1.
    unfold stored_setitem at 1. rewrite Hs.
    rewrite (IH (fun k0 I => Hin k0 (or_intror I)) _ (sset k v stored)).
    + simpl. rewrite kset_set. unfold overwrite at 2. simpl. now rewrite G.
    + simpl. apply kget_set_same.
Qed.

Lemma vehicle_state_run parsed d key s :
  names parsed d key ->
  vehicle_state parsed s =
  match start_entry d key (datastore s) with
  | Some stored =>
      (Ok tt, mkState (headers_buffer s) (wfile s ++ [Data success])
                      (kset key (merged d stored) (datastore s)))
  | None => (Raise KeyError, s)
  end.
Proof.
  intros (Hd & vehicle & vid & Hv & Hi & Hk).
  assert (Hv' : getitem (JDict d) "vehicle" = Ok vehicle)
    by (unfold getitem, py_getitem; now rewrite Hv).
  pose proof (map_map fst (fun k => JStr k) d) as MM. cbv beta in MM.
  unfold vehicle_state.
  rewrite (bind_lift_ok _ _ _ _ Hd), (bind_lift_ok _ _ _ _ Hv'),
    (bind_lift_ok _ _ _ _ Hi), (bind_lift_ok _ _ _ _ Hk).
  unfold bind at 1, datastore_contains at 1, dict_mem, start_entry.
  destruct (kget key (datastore s)) as [stored|] eqn:G.
  - unfold bind at 1, ret at 1.
    rewrite (bind_lift_ok _ _ _ _ Hd).
    unfold bind at 1, lift at 1, py_iter at 1.
    unfold bind at 1. rewrite <- MM.
    rewrite (merge_loop parsed d key (map fst d) Hd (fun k => sget_in k d) s stored G)
      by idtac.
    reflexivity.
  - rewrite Hv.
    unfold bind at 1. rewrite (bind_lift_ok _ _ _ _ Hd).
    destruct (sget "signals" d) as [signals|] eqn:Gs.
    + assert (Hs' : getitem (JDict d) "signals" = Ok signals)
        by (unfold getitem, py_getitem; now rewrite Gs).
      rewrite (bind_lift_ok _ _ _ _ Hs'), (bind_lift_ok _ _ _ _ Hd),
        (bind_lift_ok _ _ _ _ Hv').
      unfold datastore_setitem at 1.
      rewrite (bind_lift_ok _ _ _ _ Hd).
      unfold bind at 1, lift at 1, py_iter at 1.
      unfold bind at 1. rewrite <- MM.
      rewrite (merge_loop parsed d key (map fst d) Hd (fun k => sget_in k d) _
                 [("signals", signals); ("vehicle", vehicle)]).
      * simpl. now rewrite kset_set.
      * simpl. apply kget_set_same.
    + assert (Hs' : getitem (JDict d) "signals" = Raise KeyError)
        by (unfold getitem, py_getitem; now rewrite Gs).
      now rewrite (bind_lift_raise _ _ _ _ Hs').
Qed.
End Merge.

Lemma getitem_dict c k v :
  getitem c k = Ok v -> exists d, c = JDict d /\ sget k d = Some v.
Proof.
  unfold getitem, py_getitem. destruct c as [| | | |l|d]; try discriminate.
  intros E. exists d. split; [reflexivity|].
  destruct (sget k d); congruence.
Qed.

Lemma getitem_of_dict d k v : sget k d = Some v -> getitem (JDict d) k = Ok v.
Proof. intros G. unfold getitem, py_getitem. now rewrite G. Qed.

Section Store.
Context `{Library} (amt : string).

Lemma vehicle_state_store parsed s :
  store_step (datastore s) (datastore (snd (vehicle_state parsed s))).
Proof.
  destruct (getitem parsed "data") as [data|e] eqn:Hd.
  2:{ left. unfold vehicle_state. now rewrite (bind_lift_raise _ _ _ _ Hd). }
  destruct (getitem data "vehicle") as [vehicle|e] eqn:Hv.
  2:{ left. unfold vehicle_state.
      now rewrite (bind_lift_ok _ _ _ _ Hd), (bind_lift_raise _ _ _ _ Hv). }
  destruct (getitem vehicle "id") as [vid|e] eqn:Hi.
  2:{ left. unfold vehicle_state.
      now rewrite (bind_lift_ok _ _ _ _ Hd), (bind_lift_ok _ _ _ _ Hv),
        (bind_lift_raise _ _ _ _ Hi). }
  destruct (py_hash vid) as [key|e] eqn:Hk.
  2:{ left. unfold vehicle_state.
      now rewrite (bind_lift_ok _ _ _ _ Hd), (bind_lift_ok _ _ _ _ Hv),
        (bind_lift_ok _ _ _ _ Hi), (bind_lift_raise _ _ _ _ Hk). }
  destruct (getitem_dict _ _ _ Hv) as (d & -> & Gv).
  assert (N : names parsed d key) by (split; [assumption | now exists vehicle, vid]).
  rewrite (vehicle_state_run parsed d key s N).
  destruct (start_entry d key (datastore s)) as [stored|] eqn:S.
  - right. now exists parsed, d, key, stored.
  - now left.
Qed.

Lemma fail_store response s : datastore (snd (fail response s)) = datastore s.
Proof. reflexivity. Qed.

Lemma dispatch_store parsed s :
  store_step (datastore s) (datastore (snd (dispatch amt parsed s))).
Proof.
  destruct (getitem parsed "eventType") as [event|e] eqn:He.
  2:{ left. unfold dispatch. now rewrite (bind_lift_raise _ _ _ _ He). }
  unfold dispatch. rewrite (bind_lift_ok _ _ _ _ He).
  destruct (eq_str event "VERIFY").
  { left.
    destruct (getitem parsed "data") as [data|e] eqn:Hd.
    2:{ now rewrite (bind_lift_raise _ _ _ _ eq_refl). }
    rewrite (bind_lift_ok _ _ _ _ eq_refl).
    destruct (getitem data "challenge") as [c|e] eqn:Hc.
    2:{ now rewrite (bind_lift_raise _ _ _ _ eq_refl). }
    rewrite (bind_lift_ok _ _ _ _ eq_refl).
    destruct (encode c) as [m|e] eqn:Hm.
    2:{ now rewrite (bind_lift_raise _ _ _ _ eq_refl). }
    now rewrite (bind_lift_ok _ _ _ _ eq_refl). }
  rewrite (bind_lift_ok _ _ _ _ He).
  destruct (eq_str event "VEHICLE_ERROR"); [now left|].
  rewrite (bind_lift_ok _ _ _ _ He).
  destruct (eq_str event "VEHICLE_STATE"); cbn [negb]; [|now left].
  apply vehicle_state_store.
Qed.

Lemma headers_ok_dec req : headers_ok req \/ ~ headers_ok req.
Proof.
  unfold headers_ok, headers_in.
  destruct (headers_get "Content-Length" (headers req));
    [|right; intros [? _]; discriminate].
  destruct (headers_get "Content-Type" (headers req)) as [t|];
    [|right; intros [_ ?]; discriminate].
  destruct (string_dec t "application/json") as [->|D]; [now left|].
  right. intros [_ E]. congruence.
Qed.

Lemma do_POST_outcome req s : outcome amt req s (do_POST amt req s).
Proof.
  destruct (headers_ok_dec req) as [Hh|Hh].
  2:{ unfold do_POST. unfold bind at 1. rewrite (early_bad _ _ Hh).
      now apply out_headers. }
  destruct (content_length_of req) as [n|e] eqn:Hn.
  2:{ unfold do_POST. unfold bind at 1. rewrite (early_ok _ _ Hh).
      rewrite (bind_lift_raise _ _ _ _ Hn). now apply out_length. }
  destruct (rfile_read req n) as [data|e] eqn:Hr.
  2:{ unfold do_POST. unfold bind at 1. rewrite (early_ok _ _ Hh).
      rewrite (bind_lift_ok _ _ _ _ Hn), (bind_lift_raise _ _ _ _ Hr).
      now apply (out_read _ _ _ n). }
  assert (Hb : body_read req data) by now exists n.
  destruct (json_loads data) as [parsed|e] eqn:Hj.
  - assert (Hdec : forall a b : option string, a = b \/ a <> b).
    { intros [a|] [b|]; try (right; discriminate); try (now left).
      destruct (string_dec a b) as [->|D]; [now left | right; congruence]. }
    destruct (Hdec (headers_get "SC-Signature" (headers req))
                   (Some (hmac_sha256_hexdigest amt data))) as [Hs|Hs].
    + assert (P : passes amt req data parsed)
        by (split; [|split; [|split]]; assumption).
      rewrite (do_POST_passes amt req data parsed s P). now apply (out_dispatch _ _ _ data).
    + unfold do_POST. unfold bind at 1. rewrite (early_ok _ _ Hh).
      rewrite (bind_lift_ok _ _ _ _ Hn), (bind_lift_ok _ _ _ _ Hr).
      unfold bind at 1. rewrite (read_mismatch amt _ _ _ _ Hj Hs).
      now apply (out_signature _ _ _ data parsed).
  - unfold do_POST. unfold bind at 1. rewrite (early_ok _ _ Hh).
    rewrite (bind_lift_ok _ _ _ _ Hn), (bind_lift_ok _ _ _ _ Hr).
    unfold bind at 1, check_bail_out_read at 1. rewrite Hj.
    destruct e; try (apply (out_loads _ _ _ data); [assumption..|discriminate]).
    apply (out_json _ _ _ data); assumption.
Qed.

Lemma do_POST_store req s :
  store_step (datastore s) (datastore (snd (do_POST amt req s))).
Proof.
  destruct (do_POST_outcome req s); try (now left).
  apply (dispatch_store parsed
           (mkState [] (wfile s ++ [Head (headers_buffer s ++
                                            [StatusLine 200;
                                             HeaderLine "Content-type" "application/json"])])
                    (datastore s))).
Qed.
End Store.

(** ** Rendering *)

Lemma emit_nil st : emit st [] = st.
Proof. destruct st. unfold emit. simpl. now rewrite app_nil_r. Qed.

Lemma emit_app st a b : emit (emit st a) b = emit st (a ++ b).
Proof. unfold emit. simpl. now rewrite map_app, app_assoc. Qed.

Lemma wfile_write_emit b st : wfile_write b st = (Ok tt, emit st [b]).
Proof. reflexivity. Qed.

Lemma string_app_assoc (a b c : string) : ((a ++ b) ++ c = a ++ (b ++ c))%string.
Proof. induction a as [|x a IH]; simpl; [reflexivity | now rewrite IH]. Qed.

Lemma coerce_coerced v : coerce v = coerced v.
Proof. destruct v as [|[|]| | | |]; reflexivity. Qed.

Lemma unique_keys_get {V : Type} (d : list (string * V)) k v :
  unique_keys d = true -> In (k, v) d -> sget k d = Some v.
Proof.
  induction d as [|[k0 v0] r IH]; simpl; [tauto|].
  intros U [E|I].
  - injection E as -> ->. now rewrite String.eqb_refl.
  - apply andb_prop in U. destruct U as [U1 U2].
    destruct (String.eqb_spec k k0) as [->|D]; [|now apply IH].
    apply negb_true_iff in U1. apply dict_mem_get in U1.
    rewrite (IH U2 I) in U1. discriminate.
Qed.

Section Rendering.
Context `{Library}.

Lemma gauge_loop_none gs d c instance st :
  sget "code" d = Some c -> gauge_name gs c = None ->
  for_each gs (write_gauge (JDict d) instance) st = (Ok tt, st).
Proof.
  intros Hc. induction gs as [|[k n] gs IH]; intros N; [reflexivity|].
  simpl for_each. unfold bind at 1, write_gauge at 1.
  rewrite (bind_lift_ok _ _ _ _ (getitem_of_dict _ _ _ Hc)).
  destruct c as [| | |code| |]; simpl in N |- *; try (now apply IH).
  destruct (String.eqb code k); [discriminate|]. simpl. now apply IH.
Qed.

Lemma gauge_match d body meta v ms id name code st :
  sget "code" d = Some (JStr code) ->
  sget "body" d = Some (JDict body) -> sget "meta" d = Some (JDict meta) ->
  sget "value" body = Some v -> sget "oemUpdatedAt" meta = Some (JInt ms) ->
  write_gauge (JDict d) (KStr id) (code, name) st =
  (Ok tt, emit st (sample_lines id (mkSample name (coerced v) (sget "unit" body)
                                             (ms / 1000)))).
Proof.
  intros Hc Hb Hm Hv Ht. unfold write_gauge.
  rewrite (bind_lift_ok _ _ _ _ (getitem_of_dict _ _ _ Hc)).
  cbn [eq_str fst snd]. rewrite String.eqb_refl. cbn [negb].
  rewrite (bind_lift_ok _ _ _ _ (getitem_of_dict _ _ _ Hb)).
  rewrite (bind_lift_ok _ _ _ _ (getitem_of_dict _ _ _ Hv)).
  rewrite (bind_lift_ok _ _ _ _ (getitem_of_dict _ _ _ Hm)).
  rewrite (bind_lift_ok _ _ _ _ (getitem_of_dict _ _ _ Ht)).
  rewrite (bind_lift_ok _ _ _ _ (eq_refl : floordiv_1000 (JInt ms) = Ok (JInt (ms / 1000)))).
  unfold bind at 1. rewrite wfile_write_emit.
  rewrite (bind_lift_ok _ _ _ _ (getitem_of_dict _ _ _ Hb)).
  rewrite (bind_lift_ok _ _ _ _
             (eq_refl : py_contains "unit" (JDict body)
                        = Ok (dict_mem String.eqb "unit" body))).
  rewrite coerce_coerced.
  unfold sample_lines, dict_mem. cbn [metric sample_unit sample_value timestamp].
  destruct (sget "unit" body) as [u|] eqn:Hu.
  - unfold bind at 1.
    rewrite (bind_lift_ok _ _ _ _ (getitem_of_dict _ _ _ Hb)).
    rewrite (bind_lift_ok _ _ _ _ (getitem_of_dict _ _ _ Hu)).
    rewrite wfile_write_emit.
    rewrite (bind_lift_ok _ _ _ _
               (eq_refl : concat_key (name ++ "{vehicleid=" ++ dq) (KStr id) (dq ++ "} ")
                          = Ok ((name ++ "{vehicleid=" ++ dq) ++ id ++ dq ++ "} ")%string)).
    rewrite wfile_write_emit, !emit_app.
    do 2 f_equal. cbn [py_str app].
    rewrite !string_app_assoc. reflexivity.
  - unfold bind at 1, ret at 1.
    rewrite (bind_lift_ok _ _ _ _
               (eq_refl : concat_key (name ++ "{vehicleid=" ++ dq) (KStr id) (dq ++ "} ")
                          = Ok ((name ++ "{vehicleid=" ++ dq) ++ id ++ dq ++ "} ")%string)).
    rewrite wfile_write_emit, !emit_app.
    do 2 f_equal. cbn [py_str app].
    rewrite !string_app_assoc. reflexivity.
Qed.

Lemma gauge_loop_some gs d body meta v ms id name code st :
  unique_keys gs = true -> sget code gs = Some name ->
  sget "code" d = Some (JStr code) ->
  sget "body" d = Some (JDict body) -> sget "meta" d = Some (JDict meta) ->
  sget "value" body = Some v -> sget "oemUpdatedAt" meta = Some (JInt ms) ->
  for_each gs (write_gauge (JDict d) (KStr id)) st =
  (Ok tt, emit st (sample_lines id (mkSample name (coerced v) (sget "unit" body)
                                             (ms / 1000)))).
Proof.
  intros U G Hc Hb Hm Hv Ht. revert U G.
  induction gs as [|[k n] gs IH]; simpl; [discriminate|].
  intros U G. apply andb_prop in U. destruct U as [U1 U2].
  destruct (String.eqb_spec code k) as [->|D].
  - injection G as ->. unfold bind.
    rewrite (gauge_match d body meta v ms id name k st Hc Hb Hm Hv Ht).
    apply (gauge_loop_none gs d (JStr k)); [assumption|].
    simpl. apply negb_true_iff in U1. now apply dict_mem_get in U1.
  - unfold bind at 1, write_gauge at 1.
    rewrite (bind_lift_ok _ _ _ _ (getitem_of_dict _ _ _ Hc)).
    cbn [eq_str fst]. rewrite (proj2 (String.eqb_neq code k) D). cbn [negb].
    unfold ret at 1. now apply IH.
Qed.

Lemma signal_step id s o st :
  sample_of s = Some o ->
  signal_body (KStr id) s st = (Ok tt, emit st (signal_lines id o)).
Proof.
  unfold sample_of, signal_body.
  destruct s as [| | | | |d]; try discriminate.
  destruct (sget "status" d) as [[| | | | |sd]|] eqn:Hs; try discriminate.
  destruct (sget "value" sd) as [sv|] eqn:Hsv; try discriminate.
  rewrite (bind_lift_ok _ _ _ _ (getitem_of_dict _ _ _ Hs)).
  rewrite (bind_lift_ok _ _ _ _ (getitem_of_dict _ _ _ Hsv)).
  destruct (negb (eq_str sv "SUCCESS")).
  { intros E. injection E as <-. unfold ret. simpl. now rewrite emit_nil. }
  unfold write_signal.
  destruct (sget "code" d) as [c|] eqn:Hc; try discriminate.
  assert (Skip : gauge_name gauges c = None ->
                 for_each gauges (write_gauge (JDict d) (KStr id)) st
                 = (Ok tt, emit st (signal_lines id None))).
  { intros N. rewrite (gauge_loop_none gauges d c (KStr id) st Hc N).
    simpl. now rewrite emit_nil. }
  destruct c as [| | |code| |]; try (intros E; injection E as <-; now apply Skip).
  destruct (sget code gauges) as [name|] eqn:G.
  2:{ intros E; injection E as <-. now apply Skip. }
  destruct (sget "body" d) as [[| | | | |body]|] eqn:Hb; try discriminate.
  destruct (sget "meta" d) as [[| | | | |meta]|] eqn:Hm; try discriminate.
  destruct (sget "value" body) as [v|] eqn:Hv; try discriminate.
  destruct (sget "oemUpdatedAt" meta) as [[| |ms| | |]|] eqn:Ht; try discriminate.
  intros E; injection E as <-.
  now apply (gauge_loop_some gauges d body meta v ms id name code st).
Qed.

Lemma signals_loop id signals :
  forall samples st,
    all_some sample_of signals = Some samples ->
    for_each signals (signal_body (KStr id)) st
    = (Ok tt, emit st (flat_map (signal_lines id) samples)).
Proof.
  induction signals as [|s signals IH]; simpl; intros samples st E.
  - injection E as <-. simpl. unfold ret. now rewrite emit_nil.
  - destruct (sample_of s) as [o|] eqn:So; [|discriminate].
    destruct (all_some sample_of signals) as [l|] eqn:A; [|discriminate].
    injection E as <-. unfold bind. rewrite (signal_step id s o st So).
    rewrite (IH l _ eq_refl). simpl. now rewrite emit_app.
Qed.

Lemma labels_loop vehicle :
  forall l first st,
    (forall k v, In (k, v) l -> sget k vehicle = Some v) ->
    vehicle_labels (JDict vehicle) (map (fun kv => JStr (fst kv)) l) first st
    = (Ok tt, emit st (labels l first)).
Proof.
  induction l as [|[k v] l IH]; intros first st Hin.
  - simpl. unfold ret. now rewrite emit_nil.
  - simpl map. cbn [vehicle_labels fst].
    assert (G : py_getitem (JDict vehicle) (JStr k) = Ok v).
    { unfold py_getitem. now rewrite (Hin k v (or_introl eq_refl)). }
    destruct first; cbn [negb].
    + unfold bind at 1, ret at 1.
      rewrite (bind_lift_ok _ _ _ _ G).
      unfold bind at 1. rewrite wfile_write_emit.
      rewrite (IH false _ (fun k0 v0 I => Hin k0 v0 (or_intror I))).
      rewrite emit_app. reflexivity.
    + unfold bind at 1. rewrite wfile_write_emit.
      rewrite (bind_lift_ok _ _ _ _ G).
      unfold bind at 1. rewrite wfile_write_emit.
      rewrite (IH false _ (fun k0 v0 I => Hin k0 v0 (or_intror I))).
      rewrite !emit_app. reflexivity.
Qed.

Lemma vehicle_step entry part st :
  vehicle_document entry = Some part ->
  vehicle_body entry st = (Ok tt, emit st part).
Proof.
  destruct entry as [[| |id] ds]; try discriminate.
  unfold vehicle_document, vehicle_body.
  destruct (sget "vehicle" ds) as [[| | | | |vehicle]|] eqn:Hv; try discriminate.
  destruct (sget "signals" ds) as [[| | | |signals|]|] eqn:Hs; try discriminate.
  destruct (unique_keys vehicle) eqn:U; [|discriminate].
  destruct (all_some sample_of signals) as [samples|] eqn:A; [|discriminate].
  intros E. injection E as <-.
  unfold bind at 1. rewrite wfile_write_emit.
  unfold bind at 1. rewrite wfile_write_emit.
  unfold bind at 1. rewrite wfile_write_emit.
  unfold ds_getitem. rewrite Hv, Hs.
  unfold bind at 1, lift at 1. unfold bind at 1, lift at 1, py_iter at 1.
  unfold bind at 1.
  rewrite (labels_loop vehicle vehicle true _ (fun k v => unique_keys_get vehicle k v U)).
  unfold bind at 1. rewrite wfile_write_emit.
  unfold bind at 1, lift at 1. unfold bind at 1, lift at 1, py_iter at 1.
  rewrite (signals_loop id signals samples _ A).
  rewrite !emit_app. do 2 f_equal.
  unfold info_lines. rewrite <- !app_assoc. reflexivity.
Qed.

Lemma vehicles_loop store :
  forall parts st,
    all_some vehicle_document store = Some parts ->
    for_each store vehicle_body st = (Ok tt, emit st (concat parts)).
Proof.
  induction store as [|entry store IH]; simpl; intros parts st E.
  - injection E as <-. simpl. unfold ret. now rewrite emit_nil.
  - destruct (vehicle_document entry) as [part|] eqn:V; [|discriminate].
    destruct (all_some vehicle_document store) as [l|] eqn:A; [|discriminate].
    injection E as <-. unfold bind. rewrite (vehicle_step entry part st V).
    rewrite (IH l _ eq_refl). simpl. now rewrite emit_app.
Qed.

(** C5.  For a store snapshot of the shape the renderer reads, what
    a GET writes after its header block is the exposition document:
    vehicle after vehicle, the info lines and then, signal after
    signal, the lines of the signal's one sample when its status is
    SUCCESS and its code is in the gauge table - [true] as 1, [false]
    as 0, any other value as it is, the timestamp the floor of
    [oemUpdatedAt / 1000] - and nothing for any other signal. *)
Theorem rendering_completeness store doc :
  document store = Some doc ->
  handle do_GET store = (Ok tt, mkState [] (text_head :: map Data doc) store).
Proof.
  unfold document. destruct (all_some vehicle_document store) as [parts|] eqn:A;
    [|discriminate].
  intros E. injection E as <-.
  unfold handle, do_GET.
  unfold bind at 1, send_response at 1. unfold bind at 1, send_header at 1.
  unfold bind at 1, end_headers at 1. unfold bind at 1, datastore_items at 1.
  cbn [headers_buffer wfile datastore app].
  change (for_each store vehicle_body
            (mkState [] [text_head] store)
          = (Ok tt, mkState [] (text_head :: map Data (concat parts)) store)).
  now rewrite (vehicles_loop store parts _ A).
Qed.
End Rendering.

(** ** Runs of [do_POST] and [dispatch] *)

Section Runs.
Context `{Library} (amt : string).

Lemma fail_fresh response w store :
  fail response (mkState [] w store)
  = (Ok tt, mkState [] (w ++ [fail_head; Data response]) store).
Proof. rewrite fail_run. reflexivity. Qed.

Lemma do_POST_bad_headers req s :
  ~ headers_ok req -> do_POST amt req s = (Ok tt, snd (fail weird_post s)).
Proof.
  intros Hh. unfold do_POST. unfold bind at 1. now rewrite (early_bad _ _ Hh).
Qed.

Lemma do_POST_weird_json req data s :
  headers_ok req -> body_read req data -> json_loads data = Raise JSONDecodeError ->
  do_POST amt req s = (Ok tt, snd (fail weird_json s)).
Proof.
  intros Hh (n & Hn & Hr) Hj.
  unfold do_POST. unfold bind at 1. rewrite (early_ok _ _ Hh).
  rewrite (bind_lift_ok _ _ _ _ Hn), (bind_lift_ok _ _ _ _ Hr).
  unfold bind at 1. now rewrite (read_weird_json amt _ _ _ Hj).
Qed.

Lemma do_POST_mismatch req data parsed s :
  headers_ok req -> body_read req data -> json_loads data = Ok parsed ->
  headers_get "SC-Signature" (headers req) <> Some (hmac_sha256_hexdigest amt data) ->
  do_POST amt req s = (Ok tt, snd (fail mismatched_signage s)).
Proof.
  intros Hh (n & Hn & Hr) Hj Hs.
  unfold do_POST. unfold bind at 1. rewrite (early_ok _ _ Hh).
  rewrite (bind_lift_ok _ _ _ _ Hn), (bind_lift_ok _ _ _ _ Hr).
  unfold bind at 1. now rewrite (read_mismatch amt _ _ _ _ Hj Hs).
Qed.

Lemma handle_passes req data parsed store :
  passes amt req data parsed ->
  handle (do_POST amt req) store = dispatch amt parsed (mkState [] [json_head] store).
Proof. intros P. unfold handle. now rewrite (do_POST_passes amt req data parsed _ P). Qed.

Lemma dispatch_verify parsed d challenge s :
  getitem parsed "eventType" = Ok (JStr "VERIFY") ->
  getitem parsed "data" = Ok d -> getitem d "challenge" = Ok (JStr challenge) ->
  dispatch amt parsed s
  = (Ok tt, emit s [json_dumps
                      (JDict [("challenge",
                               JStr (hmac_sha256_hexdigest amt challenge))])]).
Proof.
  intros He Hd Hc. unfold dispatch.
  rewrite (bind_lift_ok _ _ _ _ He). cbn [eq_str String.eqb Ascii.eqb Bool.eqb].
  rewrite (bind_lift_ok _ _ _ _ Hd), (bind_lift_ok _ _ _ _ Hc).
  reflexivity.
Qed.

Lemma dispatch_unknown parsed event s :
  getitem parsed "eventType" = Ok event ->
  eq_str event "VERIFY" = false -> eq_str event "VEHICLE_ERROR" = false ->
  eq_str event "VEHICLE_STATE" = false ->
  dispatch amt parsed s = fail unknown_event s.
Proof.
  intros He E1 E2 E3. unfold dispatch.
  rewrite (bind_lift_ok _ _ _ _ He), E1.
  rewrite (bind_lift_ok _ _ _ _ He), E2.
  rewrite (bind_lift_ok _ _ _ _ He), E3. reflexivity.
Qed.

Lemma dispatch_state parsed s :
  getitem parsed "eventType" = Ok (JStr "VEHICLE_STATE") ->
  dispatch amt parsed s = vehicle_state parsed s.
Proof.
  intros He. unfold dispatch.
  rewrite (bind_lift_ok _ _ _ _ He). cbn [eq_str String.eqb Ascii.eqb Bool.eqb].
  rewrite (bind_lift_ok _ _ _ _ He). cbn [eq_str String.eqb Ascii.eqb Bool.eqb].
  rewrite (bind_lift_ok _ _ _ _ He). cbn [eq_str String.eqb Ascii.eqb Bool.eqb negb].
  reflexivity.
Qed.

(** A state event, run: the merge into the entry it starts from, or a
    [KeyError] when the vehicle is new and the payload has no signals. *)
Lemma handle_state_event req d key store :
  state_event amt req d key ->
  handle (do_POST amt req) store =
  match start_entry d key store with
  | Some stored =>
      (Ok tt, mkState [] [json_head; Data success] (kset key (merged d stored) store))
  | None => (Raise KeyError, mkState [] [json_head] store)
  end.
Proof.
  intros (data & parsed & P & He & N).
  rewrite (handle_passes req data parsed store P).
  rewrite (dispatch_state parsed _ He).
  now rewrite (vehicle_state_run parsed d key _ N).
Qed.
End Runs.

(** ** The answers of [do_POST] *)

Section Answers.
Context `{Library} (amt : string).

(** C4.  A POST that reaches the FAILED outcome (malformed headers,
    invalid JSON body, signature mismatch or unknown event type)
    returns normally after a call of [fail], and the store after it
    is the store before it. *)
Theorem failed_post_keeps_store req body store :
  failed amt req body ->
  let r := handle (do_POST amt req) store in
  fst r = Ok tt
  /\ datastore (snd r) = store
  /\ exists pre, wfile (snd r) = (pre ++ [fail_head; Data body])%list.
Proof.
  intros F. unfold handle. destruct F as [Hh|data Hh Hb Hj|data parsed Hh Hb Hj Hs
                                          |data parsed event P He E1 E2 E3].
  - rewrite (do_POST_bad_headers amt req _ Hh), fail_fresh. simpl.
    repeat split. now exists [].
  - rewrite (do_POST_weird_json amt req data _ Hh Hb Hj), fail_fresh. simpl.
    repeat split. now exists [].
  - rewrite (do_POST_mismatch amt req data parsed _ Hh Hb Hj Hs), fail_fresh. simpl.
    repeat split. now exists [].
  - fold (handle (do_POST amt req) store).
    rewrite (handle_passes amt req data parsed store P).
    rewrite (dispatch_unknown amt parsed event _ He E1 E2 E3), fail_fresh. simpl.
    repeat split. now exists [json_head].
Qed.

(** C6.  With a body that parses, the signature check lets a request
    through exactly when its [SC-Signature] is the HMAC-SHA256 hex
    digest of the body under the secret: with that digest the check
    passes and nothing is written, with any other string the request is
    turned down with the signature-mismatch response. *)
Theorem signature_round_trip req data parsed provided s :
  json_loads data = Ok parsed ->
  headers_get "SC-Signature" (headers req) = Some provided ->
  check_bail_out_read amt req data s
  = if String.eqb provided (hmac_sha256_hexdigest amt data)
    then (Ok false, s)
    else (Ok true, snd (fail mismatched_signage s)).
Proof.
  intros Hj Hs.
  destruct (String.eqb_spec provided (hmac_sha256_hexdigest amt data)) as [E|D].
  - subst provided. now apply (read_ok amt req data parsed).
  - apply (read_mismatch amt req data parsed); [assumption|]. congruence.
Qed.

(** C7.  A POST that passes all checks and is a VERIFY event for the
    string [challenge] is answered with status 200 and the body
    [json.dumps({"challenge": D})], [D] the HMAC-SHA256 hex digest of
    [challenge] under the secret; the answer depends on the secret
    and the challenge only, and the store is left as it was. *)
Theorem verify_response req data parsed d challenge store :
  passes amt req data parsed ->
  getitem parsed "eventType" = Ok (JStr "VERIFY") ->
  getitem parsed "data" = Ok d ->
  getitem d "challenge" = Ok (JStr challenge) ->
  let digest := hmac_sha256_hexdigest amt challenge in
  let r := handle (do_POST amt req) store in
  r = (Ok tt, mkState [] [json_head;
                          Data (json_dumps (JDict [("challenge", JStr digest)]))]
                      store)
  /\ delivered_status (wfile (snd r)) = Some 200.
Proof.
  intros P He Hd Hc digest r. subst r digest.
  rewrite (handle_passes amt req data parsed store P).
  rewrite (dispatch_verify amt parsed d challenge _ He Hd Hc).
  split; reflexivity.
Qed.

(** C8.  A state event that names the vehicle [a] leaves the entry of
    every other vehicle [b] as it was. *)
Theorem state_event_frame req d a b store :
  state_event amt req d a -> a <> b ->
  kget b (datastore (snd (handle (do_POST amt req) store))) = kget b store.
Proof.
  intros E D. rewrite (handle_state_event amt req d a store E).
  destruct (start_entry d a store) as [stored|]; simpl; [|reflexivity].
  now apply kget_set_other.
Qed.

(** C9.  A POST with [Content-Length], with [Content-Type] exactly
    [application/json] and with a body that parses, but without any
    [SC-Signature], gets through the header check and is turned down
    by the signature check, with the signature-mismatch response. *)
Theorem missing_signature_rejected req data parsed store :
  headers_ok req -> body_read req data -> json_loads data = Ok parsed ->
  headers_get "SC-Signature" (headers req) = None ->
  check_bail_out_early req (mkState [] [] store) = (Ok false, mkState [] [] store)
  /\ check_bail_out_read amt req data (mkState [] [] store)
     = (Ok true, mkState [] [fail_head; Data mismatched_signage] store)
  /\ handle (do_POST amt req) store
     = (Ok tt, mkState [] [fail_head; Data mismatched_signage] store).
Proof.
  intros Hh Hb Hj Hs.
  assert (Hn : headers_get "SC-Signature" (headers req)
               <> Some (hmac_sha256_hexdigest amt data)) by (rewrite Hs; discriminate).
  split; [now apply early_ok|]. split.
  - rewrite (read_mismatch amt req data parsed _ Hj Hn). now rewrite fail_fresh.
  - unfold handle.
    rewrite (do_POST_mismatch amt req data parsed _ Hh Hb Hj Hn). now rewrite fail_fresh.
Qed.
End Answers.

(** ** Computations that leave the store alone *)

Lemma keeps_ret {A : Type} (a : A) : keeps_store (ret a).
Proof. intros s. reflexivity. Qed.

Lemma keeps_lift {A : Type} (r : result A) : keeps_store (lift r).
Proof. intros s. reflexivity. Qed.

Lemma keeps_bind {A B : Type} (m : M A) (k : A -> M B) :
  keeps_store m -> (forall a, keeps_store (k a)) -> keeps_store (bind m k).
Proof.
  intros Hm Hk s. unfold bind. specialize (Hm s).
  destruct (m s) as [[a|e] s']; simpl in *.
  - now rewrite Hk.
  - assumption.
Qed.

Lemma keeps_for_each {A : Type} (l : list A) (body : A -> M unit) :
  (forall x, keeps_store (body x)) -> keeps_store (for_each l body).
Proof.
  intros Hb. induction l as [|x l IH]; simpl.
  - apply keeps_ret.
  - apply keeps_bind; [apply Hb | intros _; apply IH].
Qed.

Lemma keeps_write b : keeps_store (wfile_write b).
Proof. intros s. reflexivity. Qed.

Lemma keeps_send_response code : keeps_store (send_response code).
Proof. intros s. reflexivity. Qed.

Lemma keeps_send_header k v : keeps_store (send_header k v).
Proof. intros s. reflexivity. Qed.

Lemma keeps_end_headers : keeps_store end_headers.
Proof. intros s. reflexivity. Qed.

Lemma keeps_items : keeps_store datastore_items.
Proof. intros s. reflexivity. Qed.

Ltac keeps :=
  repeat first
    [ apply keeps_ret | apply keeps_lift | apply keeps_write
    | apply keeps_send_response | apply keeps_send_header | apply keeps_end_headers
    | apply keeps_items
    | apply keeps_bind; [|intro]
    | apply keeps_for_each; intro
    | match goal with |- keeps_store (if ?b then _ else _) => destruct b end ].

Section ReadOnly.
Context `{Library}.

Lemma keeps_vehicle_labels vehicle keys :
  forall first, keeps_store (vehicle_labels vehicle keys first).
Proof.
  induction keys as [|key keys IH]; intros first; simpl; keeps. apply IH.
Qed.

Lemma keeps_do_GET : keeps_store do_GET.
Proof.
  unfold do_GET. keeps. destruct x as [instance ds]. unfold vehicle_body. keeps.
  apply keeps_vehicle_labels.
Qed.
End ReadOnly.

(** ** The store across requests *)

Lemma start_entry_vehicle d key store stored vehicle :
  start_entry d key store = Some stored ->
  sget "vehicle" d = Some vehicle ->
  forall k, sget k (merged d stored) =
            match sget k d with
            | Some v => Some v
            | None => match kget key store with
                      | Some e0 => sget k e0
                      | None => None
                      end
            end.
Proof.
  unfold start_entry. intros S Hv k. rewrite sget_merged.
  destruct (sget k d) as [v|] eqn:G; [reflexivity|].
  destruct (kget key store) as [e0|].
  - now injection S as ->.
  - destruct (sget "signals" d) as [signals|] eqn:Gs; [|discriminate].
    rewrite Hv in S. injection S as <-. simpl.
    destruct (String.eqb_spec k "signals") as [->|_]; [congruence|].
    destruct (String.eqb_spec k "vehicle") as [->|_]; [congruence|].
    reflexivity.
Qed.

Lemma store_step_consistent store store' :
  store_step store store' -> key_consistent store -> key_consistent store'.
Proof.
  intros [->|(parsed & d & key & stored & N & S & ->)] C; [assumption|].
  intros K ds G.
  destruct N as (Hd & vehicle & vid & Hv & Hi & Hk).
  destruct (pykey_eqb K key) eqn:E.
  - apply pykey_eqb_eq in E. subst K.
    rewrite kget_set_same in G. injection G as <-.
    exists vehicle, vid. repeat split; try assumption.
    now rewrite sget_merged, Hv.
  - assert (D : key <> K) by (intros ->; rewrite (eqb_same _ pykey_eqb_eq) in E; discriminate).
    rewrite (kget_set_other _ _ _ _ D) in G. now apply C.
Qed.

Section Sessions.
Context `{Library} (amt : string).

Lemma serve_one_consistent store r :
  key_consistent store -> key_consistent (serve_one amt store r).
Proof.
  intros C. destruct r as [|req]; simpl.
  - unfold handle. now rewrite keeps_do_GET.
  - apply (store_step_consistent store); [|assumption].
    apply (do_POST_store amt req (mkState [] [] store)).
Qed.

(** C10.  After any sequence of requests, from the empty store on,
    every id in the store is the [vehicle.id] of its entry. *)
Theorem key_consistency rs : key_consistent (serve amt rs).
Proof.
  unfold serve.
  assert (G : forall store, key_consistent store ->
                            key_consistent (fold_left (serve_one amt) rs store)).
  { induction rs as [|r rs IH]; intros store C; simpl; [assumption|].
    apply IH. now apply serve_one_consistent. }
  apply G. intros key ds E. discriminate.
Qed.

(** C1, amended.  After a state event with the data object [d1] that
    is handled to its end and then one with the data object [d2],
    both naming [key], the second is handled to its end as well and
    the entry of [key] has, for every top-level key: the value of
    [d2] if [d2] has the key; else the value of [d1] if [d1] has it;
    else what the entry held before the first event, and nothing if
    [key] had no entry then. *)
Theorem merge_law store req1 req2 d1 d2 key :
  state_event amt req1 d1 key -> state_event amt req2 d2 key ->
  let r1 := handle (do_POST amt req1) store in
  let r2 := handle (do_POST amt req2) (datastore (snd r1)) in
  fst r1 = Ok tt ->
  fst r2 = Ok tt
  /\ exists entry,
      kget key (datastore (snd r2)) = Some entry
      /\ forall k, sget k entry =
                   match sget k d2 with
                   | Some v => Some v
                   | None =>
                       match sget k d1 with
                       | Some v => Some v
                       | None => match kget key store with
                                 | Some e0 => sget k e0
                                 | None => None
                                 end
                       end
                   end.
Proof.
  intros E1 E2 r1 r2. subst r2 r1.
  rewrite (handle_state_event amt req1 d1 key store E1).
  destruct (start_entry d1 key store) as [st1|] eqn:S1; simpl; [intros _|discriminate].
  rewrite (handle_state_event amt req2 d2 key _ E2).
  assert (S2 : start_entry d2 key (kset key (merged d1 st1) store)
               = Some (merged d1 st1))
    by (unfold start_entry; now rewrite kget_set_same).
  rewrite S2. simpl.
  split; [reflexivity|].
  exists (merged d2 (merged d1 st1)). split; [apply kget_set_same|].
  intros k. rewrite sget_merged.
  destruct (sget k d2) as [v|]; [reflexivity|].
  destruct E1 as (_ & _ & _ & _ & _ & vehicle & _ & Hv & _).
  apply (start_entry_vehicle d1 key store st1 vehicle S1 Hv).
Qed.
End Sessions.

(** ** The library, checked on published vectors *)

Example sha256_abc :
  Hashlib.hex (Hashlib.sha256 (Hashlib.bytes_of "abc"))
  = "ba7816bf8f01cfea414140de5dae2223b00361a396177a9cb410ff61f20015ad".
Proof. vm_compute. reflexivity. Qed.

Example hmac_sha256_rfc4231_2 :
  Hashlib.hexdigest "Jefe" "what do ya want for nothing?"
  = "5bdcc146bf60754e6a042426089575c75a003f089d2739839dec58b964ec3843".
Proof. vm_compute. reflexivity. Qed.

Example loads_state_body1 :
  Json.loads state_body1
  = Ok (JDict [("eventType", JStr "VEHICLE_STATE"); ("data", JDict data1)]).
Proof. vm_compute. reflexivity. Qed.

Example loads_state_body2 :
  Json.loads state_body2
  = Ok (JDict [("eventType", JStr "VEHICLE_STATE"); ("data", JDict data2)]).
Proof. vm_compute. reflexivity. Qed.

(** [store_v1] is the store that the first state event leaves. *)
Example store_v1_reached :
  handle (do_POST secret (signed_post secret state_body0)) []
  = (Ok tt, mkState [] [json_head; Data success] store_v1).
Proof. vm_compute. reflexivity. Qed.

(** ** The properties on concrete requests *)

Ltac run := vm_compute; reflexivity.

Ltac passing body :=
  split; [split; run
         | split; [exists (Z.of_nat (String.length body)); split; run
                  | split; run]].

Lemma failed_post_keeps_store_witness :
  let r := handle (do_POST secret (post [("Content-Type", "application/json");
                                         ("SC-Signature", "00")] verify_body)) store_v1 in
  fst r = Ok tt
  /\ datastore (snd r) = store_v1
  /\ exists pre, wfile (snd r) = (pre ++ [fail_head; Data mismatched_signage])%list.
Proof.
  apply (failed_post_keeps_store secret).
  apply (authentication_failure secret _ verify_body
           (JDict [("eventType", JStr "VERIFY");
                   ("data", JDict [("challenge", JStr "abc")])])).
  - split; run.
  - exists (Z.of_nat (String.length verify_body)). split; run.
  - run.
  - vm_compute. discriminate.
Defined.

Lemma state_event_v1_1 : state_event secret (signed_post secret state_body1) data1 (KStr "v1").
Proof.
  exists state_body1, (JDict [("eventType", JStr "VEHICLE_STATE"); ("data", JDict data1)]).
  split; [passing state_body1|]. split; [run|]. split; [run|].
  exists (JDict [("id", JStr "v1")]), (JStr "v1"). repeat split.
Qed.

Lemma state_event_v1_2 : state_event secret (signed_post secret state_body2) data2 (KStr "v1").
Proof.
  exists state_body2, (JDict [("eventType", JStr "VEHICLE_STATE"); ("data", JDict data2)]).
  split; [passing state_body2|]. split; [run|]. split; [run|].
  exists (JDict [("id", JStr "v1")]), (JStr "v1"). repeat split.
Qed.

Lemma merge_law_witness :
  let r1 := handle (do_POST secret (signed_post secret state_body1)) store_v1 in
  let r2 := handle (do_POST secret (signed_post secret state_body2)) (datastore (snd r1)) in
  fst r2 = Ok tt
  /\ exists entry,
      kget (KStr "v1") (datastore (snd r2)) = Some entry
      /\ forall k, sget k entry =
                   match sget k data2 with
                   | Some v => Some v
                   | None =>
                       match sget k data1 with
                       | Some v => Some v
                       | None => match kget (KStr "v1") store_v1 with
                                 | Some e0 => sget k e0
                                 | None => None
                                 end
                       end
                   end.
Proof.
  apply (merge_law secret store_v1 _ _ data1 data2 (KStr "v1")
           state_event_v1_1 state_event_v1_2).
  vm_compute. reflexivity.
Defined.

(** C1, as stated, fails: [v1] has an entry with a top-level [mode]
    when the two events arrive, neither of them has a [mode], and the
    entry keeps it. *)
Lemma merge_law_as_stated_fails :
  ~ merge_law_as_stated secret store_v1
      (signed_post secret state_body1) (signed_post secret state_body2)
      data1 data2 (KStr "v1").
Proof.
  intros Law.
  destruct (Law state_event_v1_1 state_event_v1_2) as (entry & G & L);
    [run | run |].
  assert (E : kget (KStr "v1")
                (datastore
                   (snd (handle (do_POST secret (signed_post secret state_body2))
                           (datastore
                              (snd (handle (do_POST secret
                                              (signed_post secret state_body1))
                                      store_v1))))))
              = Some entry_v1) by run.
  rewrite E in G. injection G as <-.
  specialize (L "mode"). discriminate L.
Qed.

Lemma signature_round_trip_witness :
  check_bail_out_read secret (signed_post secret verify_body) verify_body
    (mkState [] [] store_v1)
  = (Ok false, mkState [] [] store_v1)
  /\ check_bail_out_read secret
       (post [("Content-Type", "application/json"); ("SC-Signature", "00")] verify_body)
       verify_body (mkState [] [] store_v1)
     = (Ok true, mkState [] [fail_head; Data mismatched_signage] store_v1).
Proof.
  split.
  - rewrite (signature_round_trip secret (signed_post secret verify_body) verify_body
               (JDict [("eventType", JStr "VERIFY");
                       ("data", JDict [("challenge", JStr "abc")])])
               (Hashlib.hexdigest secret verify_body)); run.
  - rewrite (signature_round_trip secret
               (post [("Content-Type", "application/json"); ("SC-Signature", "00")]
                     verify_body)
               verify_body
               (JDict [("eventType", JStr "VERIFY");
                       ("data", JDict [("challenge", JStr "abc")])])
               "00"); run.
Defined.

Lemma verify_response_witness :
  let r := handle (do_POST secret (signed_post secret verify_body)) store_v1 in
  r = (Ok tt,
       mkState [] [json_head;
                   Data (json_dumps
                           (JDict [("challenge",
                                    JStr (hmac_sha256_hexdigest secret "abc"))]))]
               store_v1)
  /\ delivered_status (wfile (snd r)) = Some 200.
Proof.
  apply (verify_response secret (signed_post secret verify_body) verify_body
           (JDict [("eventType", JStr "VERIFY");
                   ("data", JDict [("challenge", JStr "abc")])])
           (JDict [("challenge", JStr "abc")]) "abc" store_v1);
    [passing verify_body | run | run | run].
Defined.

(** The VERIFY scenario of the specification, with the digest spelled
    out. *)
Example verify_scenario :
  wfile (snd (handle (do_POST secret (signed_post secret verify_body)) []))
  = [json_head;
     Data ("{" ++ dq ++ "challenge" ++ dq ++ ": " ++ dq
           ++ "4f2f30aaf4a57bd60ab473c8e9c2cdfefc186723d4727ed6f31f04353c91389a"
           ++ dq ++ "}")].
Proof. run. Qed.

Lemma state_event_v2 :
  state_event secret (signed_post secret state_body_v2)
    [("vehicle", JDict [("id", JStr "v2")]); ("signals", JList [])] (KStr "v2").
Proof.
  exists state_body_v2,
    (JDict [("eventType", JStr "VEHICLE_STATE");
            ("data", JDict [("vehicle", JDict [("id", JStr "v2")]);
                            ("signals", JList [])])]).
  split; [passing state_body_v2|]. split; [run|]. split; [run|].
  exists (JDict [("id", JStr "v2")]), (JStr "v2"). repeat split.
Qed.

Lemma state_event_frame_witness :
  kget (KStr "v1")
    (datastore (snd (handle (do_POST secret (signed_post secret state_body_v2)) store_v1)))
  = kget (KStr "v1") store_v1.
Proof.
  apply (state_event_frame secret _ _ (KStr "v2") (KStr "v1") store_v1 state_event_v2).
  discriminate.
Defined.

Lemma missing_signature_rejected_witness :
  let req := post [("Content-Type", "application/json")] verify_body in
  check_bail_out_early req (mkState [] [] store_v1) = (Ok false, mkState [] [] store_v1)
  /\ check_bail_out_read secret req verify_body (mkState [] [] store_v1)
     = (Ok true, mkState [] [fail_head; Data mismatched_signage] store_v1)
  /\ handle (do_POST secret req) store_v1
     = (Ok tt, mkState [] [fail_head; Data mismatched_signage] store_v1).
Proof.
  apply (missing_signature_rejected secret
           (post [("Content-Type", "application/json")] verify_body) verify_body
           (JDict [("eventType", JStr "VERIFY");
                   ("data", JDict [("challenge", JStr "abc")])]) store_v1).
  - split; run.
  - exists (Z.of_nat (String.length verify_body)). split; run.
  - run.
  - run.
Defined.

Lemma rendering_completeness_witness :
  handle do_GET store_flags
  = (Ok tt, mkState [] (text_head :: map Data document_flags) store_flags).
Proof. apply (rendering_completeness store_flags document_flags). run. Defined.

(** The scenario of the specification: a state update, then a GET. *)
Example state_update_then_render :
  handle do_GET store_v1 = (Ok tt, mkState [] (text_head :: map Data document_v1) store_v1).
Proof. run. Qed.

(** C2.  The answer to an event of an unknown type, passing all checks:
    the header block of a 200 has gone out before the dispatch, the
    header block of the 503 follows it as body, so the status the
    client reads is 200; the store is as before and nothing is raised. *)
Theorem unknown_event_status :
  let r := handle (do_POST secret (signed_post secret unknown_body)) store_v1 in
  fst r = Ok tt
  /\ wfile (snd r) = [json_head; fail_head; Data unknown_event]
  /\ delivered_status (wfile (snd r)) = Some 200
  /\ datastore (snd r) = store_v1.
Proof. split; [run | split; [run | split; run]]. Qed.

(** C3.  The bodies of the four failure responses, each on a request
    that fails that way: none is the document of the interface table,
    and none is a JSON document at all. *)
Theorem error_bodies :
  (wfile (snd (handle (do_POST secret (post [] verify_body)) []))
   = [fail_head; Data weird_post]
   /\ weird_post <> error_document "weird post"
   /\ json_loads weird_post = Raise JSONDecodeError)
  /\ (wfile (snd (handle (do_POST secret (signed_post secret "{")) []))
      = [fail_head; Data weird_json]
      /\ weird_json <> error_document "weird json"
      /\ json_loads weird_json = Raise JSONDecodeError)
  /\ (wfile (snd (handle (do_POST secret
                            (post [("Content-Type", "application/json");
                                   ("SC-Signature", "00")] verify_body)) []))
      = [fail_head; Data mismatched_signage]
      /\ mismatched_signage <> error_document "mismatched signage"
      /\ json_loads mismatched_signage = Raise JSONDecodeError)
  /\ (wfile (snd (handle (do_POST secret (signed_post secret unknown_body)) []))
      = [json_head; fail_head; Data unknown_event]
      /\ unknown_event <> error_document "ignoring unknown eventType"
      /\ json_loads unknown_event = Raise JSONDecodeError).
Proof.
  split; [|split; [|split]];
    (split; [run | split; [vm_compute; discriminate | run]]).
Qed.

(** * Further properties *)

(** ** Dictionaries, in place and in order *)

Lemma sset_same {V : Type} k (v : V) d : sget k d = Some v -> sset k v d = d.
Proof.
  induction d as [|[k' v'] r IH]; simpl; [discriminate|].
  destruct (String.eqb k k') eqn:E.
  - now intros [= ->].
  - intros G. now rewrite IH.
Qed.

Lemma kset_keys_bound {V : Type} key (v v0 : V) store :
  kget key store = Some v0 -> map fst (kset key v store) = map fst store.
Proof.
  induction store as [|[k' v'] r IH]; simpl; [discriminate|].
  destruct (pykey_eqb key k') eqn:E; simpl; [reflexivity|].
  intros G. now rewrite IH.
Qed.

Lemma kset_keys_new {V : Type} key (v : V) store :
  kget key store = None -> map fst (kset key v store) = (map fst store ++ [key])%list.
Proof.
  induction store as [|[k' v'] r IH]; simpl; [reflexivity|].
  destruct (pykey_eqb key k') eqn:E; simpl; [discriminate|].
  intros G. now rewrite IH.
Qed.

Lemma overwrite_fixed d l st :
  (forall k, In k l -> exists v, sget k d = Some v /\ sget k st = Some v) ->
  overwrite d l st = st.
Proof.
  unfold overwrite. induction l as [|k l IH]; intros F; simpl; [reflexivity|].
  destruct (F k (or_introl eq_refl)) as (v & G1 & G2).
  rewrite G1, (sset_same _ _ _ G2). apply IH. intros k' I. apply F. now right.
Qed.

Lemma merged_twice d st : merged d (merged d st) = merged d st.
Proof.
  unfold merged at 1. apply overwrite_fixed. intros k I.
  destruct (sget k d) as [v|] eqn:G; [|now apply sget_in in I].
  exists v. split; [reflexivity|]. now rewrite sget_merged, G.
Qed.

Lemma start_entry_same d key store store' :
  kget key store' = kget key store -> start_entry d key store' = start_entry d key store.
Proof. unfold start_entry. now intros ->. Qed.

(** ** More answers of [do_POST] *)

Section MoreAnswers.
Context `{Library} (amt : string).

Lemma dispatch_error parsed s :
  getitem parsed "eventType" = Ok (JStr "VEHICLE_ERROR") ->
  dispatch amt parsed s = (Ok tt, emit s [acknowledged]).
Proof.
  intros He. unfold dispatch.
  rewrite (bind_lift_ok _ _ _ _ He). cbn [eq_str String.eqb Ascii.eqb Bool.eqb].
  rewrite (bind_lift_ok _ _ _ _ He). cbn [eq_str String.eqb Ascii.eqb Bool.eqb].
  reflexivity.
Qed.

(** X1.  A POST that passes all checks and is a VEHICLE_ERROR event is
    answered with status 200 and the body [{"acknowledged":true}],
    whatever else the payload holds, and the store is left as it was. *)
Theorem vehicle_error_response req data parsed store :
  passes amt req data parsed ->
  getitem parsed "eventType" = Ok (JStr "VEHICLE_ERROR") ->
  handle (do_POST amt req) store
  = (Ok tt, mkState [] [json_head; Data acknowledged] store).
Proof.
  intros P He. rewrite (handle_passes amt req data parsed store P).
  now rewrite (dispatch_error parsed _ He).
Qed.

Lemma handle_state_after req d key store :
  state_event amt req d key ->
  datastore (snd (handle (do_POST amt req) store)) = after_event d key store.
Proof.
  intros E. rewrite (handle_state_event amt req d key store E). unfold after_event.
  now destruct (start_entry d key store).
Qed.

(** X2.  The first state event for a vehicle, with signals in its data
    object: it is answered with status 200 and [{"success":true}], the
    vehicle is added after the ids already stored, and its entry has,
    key by key, the values of the data object. *)
Theorem first_state_event req d key signals store :
  state_event amt req d key ->
  kget key store = None ->
  sget "signals" d = Some signals ->
  let r := handle (do_POST amt req) store in
  fst r = Ok tt
  /\ wfile (snd r) = [json_head; Data success]
  /\ map fst (datastore (snd r)) = (map fst store ++ [key])%list
  /\ exists entry,
      kget key (datastore (snd r)) = Some entry
      /\ forall k, sget k entry = sget k d.
Proof.
  intros E G Gs r. subst r.
  rewrite (handle_state_event amt req d key store E).
  destruct E as (_ & _ & _ & _ & _ & vehicle & _ & Hv & _).
  assert (S : start_entry d key store = Some [("signals", signals); ("vehicle", vehicle)])
    by (unfold start_entry; now rewrite G, Gs, Hv).
  rewrite S. simpl.
  split; [reflexivity|]. split; [reflexivity|]. split; [now apply kset_keys_new|].
  eexists. split; [apply kget_set_same|].
  intros k. rewrite (start_entry_vehicle d key store _ vehicle S Hv), G.
  now destruct (sget k d).
Qed.

(** X3.  The first state event for a vehicle, without signals in its
    data object: [do_POST] raises [KeyError] when the header block of
    the 200 has gone out; no body follows and nothing is stored. *)
Theorem state_event_without_signals req d key store :
  state_event amt req d key ->
  kget key store = None ->
  sget "signals" d = None ->
  handle (do_POST amt req) store = (Raise KeyError, mkState [] [json_head] store).
Proof.
  intros E G Gs. rewrite (handle_state_event amt req d key store E).
  unfold start_entry. now rewrite G, Gs.
Qed.

(** X9.  A state event that is delivered again right after it was
    handled to its end gets the same answer and leaves the store as
    the first delivery left it. *)
Theorem state_event_idempotent req d key store :
  state_event amt req d key ->
  let r := handle (do_POST amt req) store in
  fst r = Ok tt ->
  handle (do_POST amt req) (datastore (snd r)) = r.
Proof.
  intros E r. subst r.
  rewrite (handle_state_event amt req d key store E).
  destruct (start_entry d key store) as [stored|] eqn:S; simpl; [intros _|discriminate].
  rewrite (handle_state_event amt req d key _ E).
  unfold start_entry at 1. rewrite kget_set_same.
  now rewrite merged_twice, kset_set.
Qed.

Lemma kget_after_other d key store k :
  key <> k -> kget k (after_event d key store) = kget k store.
Proof.
  intros D. unfold after_event.
  destruct (start_entry d key store); [now apply kget_set_other | reflexivity].
Qed.

Lemma after_event_same d key store store' :
  kget key store' = kget key store ->
  kget key (after_event d key store') = kget key (after_event d key store).
Proof.
  intros G. unfold after_event. rewrite (start_entry_same d key store store' G).
  destruct (start_entry d key store); [|assumption].
  now rewrite !kget_set_same.
Qed.

(** X10.  State events for two different vehicles can be handled in
    either order: every id has the same entry afterwards. *)
Theorem state_events_commute req1 req2 d1 d2 a b store :
  state_event amt req1 d1 a -> state_event amt req2 d2 b -> a <> b ->
  let store12 :=
    datastore (snd (handle (do_POST amt req2)
                           (datastore (snd (handle (do_POST amt req1) store))))) in
  let store21 :=
    datastore (snd (handle (do_POST amt req1)
                           (datastore (snd (handle (do_POST amt req2) store))))) in
  forall k, kget k store12 = kget k store21.
Proof.
  intros E1 E2 D store12 store21 k. subst store12 store21.
  rewrite !(handle_state_after req1 d1 a _ E1), !(handle_state_after req2 d2 b _ E2).
  destruct (pykey_eqb k a) eqn:Ka.
  - apply pykey_eqb_eq in Ka. subst k.
    rewrite (kget_after_other d2 b _ a) by congruence.
    apply eq_sym, after_event_same. apply kget_after_other. congruence.
  - assert (Da : a <> k)
      by (intros ->; rewrite (eqb_same _ pykey_eqb_eq) in Ka; discriminate).
    rewrite (kget_after_other d1 a (after_event d2 b store) k Da).
    destruct (pykey_eqb k b) eqn:Kb.
    + apply pykey_eqb_eq in Kb. subst k.
      apply after_event_same. now apply kget_after_other.
    + assert (Db : b <> k)
        by (intros ->; rewrite (eqb_same _ pykey_eqb_eq) in Kb; discriminate).
      now rewrite !(kget_after_other d2 b _ k Db), (kget_after_other d1 a _ k Da).
Qed.
End MoreAnswers.

(** ** What a request writes *)

Lemma grows_ret {A : Type} (a : A) : grows (ret a).
Proof. intros s. exists []. simpl. now rewrite app_nil_r. Qed.

Lemma grows_lift {A : Type} (r : result A) : grows (lift r).
Proof. intros s. exists []. simpl. now rewrite app_nil_r. Qed.

Lemma grows_bind {A B : Type} (m : M A) (k : A -> M B) :
  grows m -> (forall a, grows (k a)) -> grows (bind m k).
Proof.
  intros Hm Hk s. unfold bind. destruct (Hm s) as [l Hl].
  destruct (m s) as [[a|e] s']; simpl in *.
  - destruct (Hk a s') as [l' Hl']. exists (l ++ l')%list.
    now rewrite Hl', Hl, app_assoc.
  - now exists l.
Qed.

Lemma grows_for_each {A : Type} (l : list A) (body : A -> M unit) :
  (forall x, grows (body x)) -> grows (for_each l body).
Proof.
  intros Hb. induction l as [|x l IH]; simpl.
  - apply grows_ret.
  - apply grows_bind; [apply Hb | intros _; apply IH].
Qed.

Lemma grows_write b : grows (wfile_write b).
Proof. intros s. now exists [Data b]. Qed.

Lemma grows_send_response code : grows (send_response code).
Proof. intros s. exists []. simpl. now rewrite app_nil_r. Qed.

Lemma grows_send_header k v : grows (send_header k v).
Proof. intros s. exists []. simpl. now rewrite app_nil_r. Qed.

Lemma grows_end_headers : grows end_headers.
Proof. intros s. now exists [Head (headers_buffer s)]. Qed.

Lemma grows_contains key : grows (datastore_contains key).
Proof. intros s. exists []. simpl. now rewrite app_nil_r. Qed.

Lemma grows_setitem key ds : grows (datastore_setitem key ds).
Proof. intros s. exists []. simpl. now rewrite app_nil_r. Qed.

Lemma grows_stored_setitem key field v : grows (stored_setitem key field v).
Proof.
  intros s. exists []. unfold stored_setitem.
  destruct (kget key (datastore s)); simpl; now rewrite app_nil_r.
Qed.

Ltac grows_step :=
  repeat first
    [ apply grows_ret | apply grows_lift | apply grows_write
    | apply grows_send_response | apply grows_send_header | apply grows_end_headers
    | apply grows_contains | apply grows_setitem | apply grows_stored_setitem
    | apply grows_bind; [|intro]
    | apply grows_for_each; intro
    | match goal with |- grows (if ?b then _ else _) => destruct b end ].

Section Written.
Context `{Library} (amt : string).

Lemma grows_dispatch parsed : grows (dispatch amt parsed).
Proof. unfold dispatch, vehicle_state, fail. grows_step. Qed.


Lemma eq_str_true event s : eq_str event s = true -> event = JStr s.
Proof.
  destruct event; simpl; try discriminate. intros E. apply String.eqb_eq in E. now subst.
Qed.

Lemma dispatch_changes parsed s :
  datastore (snd (dispatch amt parsed s)) <> datastore s ->
  getitem parsed "eventType" = Ok (JStr "VEHICLE_STATE")
  /\ exists d key, names parsed d key.
Proof.
  destruct (getitem parsed "eventType") as [event|e0] eqn:He.
  2:{ unfold dispatch. rewrite (bind_lift_raise _ _ _ _ He). simpl. congruence. }
  destruct (eq_str event "VEHICLE_STATE") eqn:Es.
  - apply eq_str_true in Es. subst event.
    rewrite (dispatch_state amt parsed s He). intros N. split; [reflexivity|].
    destruct (getitem parsed "data") as [data|e1] eqn:Hd.
    2:{ exfalso. apply N. unfold vehicle_state.
        now rewrite (bind_lift_raise _ _ _ _ Hd). }
    destruct (getitem data "vehicle") as [vehicle|e1] eqn:Hv.
    2:{ exfalso. apply N. unfold vehicle_state.
        now rewrite (bind_lift_ok _ _ _ _ Hd), (bind_lift_raise _ _ _ _ Hv). }
    destruct (getitem vehicle "id") as [vid|e1] eqn:Hi.
    2:{ exfalso. apply N. unfold vehicle_state.
        now rewrite (bind_lift_ok _ _ _ _ Hd), (bind_lift_ok _ _ _ _ Hv),
          (bind_lift_raise _ _ _ _ Hi). }
    destruct (py_hash vid) as [k|e1] eqn:Hk.
    2:{ exfalso. apply N. unfold vehicle_state.
        now rewrite (bind_lift_ok _ _ _ _ Hd), (bind_lift_ok _ _ _ _ Hv),
          (bind_lift_ok _ _ _ _ Hi), (bind_lift_raise _ _ _ _ Hk). }
    destruct (getitem_dict _ _ _ Hv) as (d' & -> & Gv).
    exists d', k. split; [exact Hd | now exists vehicle, vid].
  - intros N. exfalso. apply N. unfold dispatch.
    rewrite (bind_lift_ok _ _ _ _ He).
    destruct (eq_str event "VERIFY").
    { destruct (getitem parsed "data") as [data|e1] eqn:Hd.
      2:{ now rewrite (bind_lift_raise _ _ _ _ eq_refl). }
      rewrite (bind_lift_ok _ _ _ _ eq_refl).
      destruct (getitem data "challenge") as [c|e1] eqn:Hc.
      2:{ now rewrite (bind_lift_raise _ _ _ _ eq_refl). }
      rewrite (bind_lift_ok _ _ _ _ eq_refl).
      destruct (encode c) as [m|e1] eqn:Hm.
      2:{ now rewrite (bind_lift_raise _ _ _ _ eq_refl). }
      now rewrite (bind_lift_ok _ _ _ _ eq_refl). }
    rewrite (bind_lift_ok _ _ _ _ He).
    destruct (eq_str event "VEHICLE_ERROR"); [reflexivity|].
    rewrite (bind_lift_ok _ _ _ _ He), Es. reflexivity.
Qed.

(** X4.  The store changes only through a POST that passes the header,
    JSON and signature checks and is a VEHICLE_STATE event naming a
    vehicle; the change is then the merge of that event. *)
Theorem store_changes_by_state_event_only req store :
  datastore (snd (handle (do_POST amt req) store)) <> store ->
  exists d key,
    state_event amt req d key
    /\ datastore (snd (handle (do_POST amt req) store)) = after_event d key store.
Proof.
  unfold handle. intros N.
  assert (Hs : exists d key, state_event amt req d key).
  { revert N. destruct (do_POST_outcome amt req (mkState [] [] store));
      try (simpl; congruence).
    intros N. apply dispatch_changes in N. destruct N as (He & d & key & Hn).
    exists d, key. now exists data, parsed. }
  destruct Hs as (d & key & E). exists d, key. split; [assumption|].
  apply (handle_state_after amt req d key store E).
Qed.

(** X5.  The client reads status 200 exactly when the request passes
    the header check, the JSON check and the signature check. *)
Theorem status_200_iff_passes req store :
  delivered_status (wfile (snd (handle (do_POST amt req) store))) = Some 200
  <-> exists data parsed, passes amt req data parsed.
Proof.
  split.
  - unfold handle.
    destruct (do_POST_outcome amt req (mkState [] [] store));
      try (rewrite fail_fresh); try (simpl; discriminate).
    intros _. now exists data, parsed.
  - intros (data & parsed & P).
    rewrite (handle_passes amt req data parsed store P).
    destruct (grows_dispatch parsed (mkState [] [json_head] store)) as [l Hl].
    rewrite Hl. reflexivity.
Qed.


(** X11.  A POST never removes an id from the store and never moves
    one: the ids after it are the ids before it, in their order, with
    at most one new id after them. *)
Theorem ids_append_only req store :
  exists l,
    map fst (datastore (snd (handle (do_POST amt req) store))) = (map fst store ++ l)%list
    /\ (length l <= 1)%nat.
Proof.
  destruct (do_POST_store amt req (mkState [] [] store))
    as [E|(parsed & d & key & stored & N & S & E)];
    unfold handle; rewrite E; simpl.
  - exists []. rewrite app_nil_r. split; [reflexivity | simpl; lia].
  - destruct (kget key store) as [e0|] eqn:G.
    + exists []. rewrite app_nil_r, (kset_keys_bound _ _ e0 _ G).
      split; [reflexivity | simpl; lia].
    + exists [key]. rewrite (kset_keys_new _ _ _ G). split; [reflexivity | simpl; lia].
Qed.

(** X12.  A POST never removes a top-level key from an entry: an id
    that has an entry before the request has one after it, with every
    top-level key it had. *)
Theorem entries_keep_keys req store key entry :
  kget key store = Some entry ->
  exists entry',
    kget key (datastore (snd (handle (do_POST amt req) store))) = Some entry'
    /\ forall k, sget k entry <> None -> sget k entry' <> None.
Proof.
  intros G.
  destruct (do_POST_store amt req (mkState [] [] store))
    as [E|(parsed & d & key' & stored & N & S & E)];
    unfold handle; rewrite E; simpl.
  - exists entry. split; [assumption | trivial].
  - destruct (pykey_eqb key key') eqn:K.
    + apply pykey_eqb_eq in K. subst key'.
      unfold start_entry in S. simpl in S. rewrite G in S. injection S as <-.
      exists (merged d entry). split; [apply kget_set_same|].
      intros k Hk. rewrite sget_merged. destruct (sget k d); [discriminate | assumption].
    + assert (D : key' <> key)
        by (intros ->; rewrite (eqb_same _ pykey_eqb_eq) in K; discriminate).
      exists entry. split; [|trivial]. now rewrite (kget_set_other _ _ _ _ D).
Qed.

Lemma store_step_complete store store' :
  store_step store store' -> entry_complete store -> entry_complete store'.
Proof.
  intros [->|(parsed & d & key & stored & N & S & ->)] C; [assumption|].
  intros K ds G.
  destruct (pykey_eqb K key) eqn:E.
  - apply pykey_eqb_eq in E. subst K.
    rewrite kget_set_same in G. injection G as <-.
    assert (Hst : exists vehicle signals,
               sget "vehicle" stored = Some vehicle /\ sget "signals" stored = Some signals).
    { unfold start_entry in S. destruct (kget key store) as [e0|] eqn:G0.
      - injection S as <-. exact (C key e0 G0).
      - destruct (sget "signals" d) as [sg|]; [|discriminate].
        destruct (sget "vehicle" d) as [vh|]; [|discriminate].
        injection S as <-. now exists vh, sg. }
    destruct Hst as (vehicle & signals & Hv & Hs).
    rewrite !sget_merged, Hv, Hs.
    destruct (sget "vehicle" d) as [v'|], (sget "signals" d) as [s'|]; eauto.
  - assert (D : key <> K) by (intros ->; rewrite (eqb_same _ pykey_eqb_eq) in E; discriminate).
    rewrite (kget_set_other _ _ _ _ D) in G. exact (C K ds G).
Qed.

(** X13.  After any sequence of requests, from the empty store on,
    every entry of the store has a [vehicle] and [signals]: the two
    lookups [ds["vehicle"]] and [ds["signals"]] of [do_GET] find their
    key. *)
Theorem reachable_entries_complete rs : entry_complete (serve amt rs).
Proof.
  unfold serve.
  assert (G : forall store, entry_complete store ->
                            entry_complete (fold_left (serve_one amt) rs store)).
  { induction rs as [|r rs IH]; intros store C; simpl; [assumption|].
    apply IH. destruct r as [|req]; simpl.
    - unfold handle. now rewrite keeps_do_GET.
    - apply (store_step_complete store); [|assumption].
      apply (do_POST_store amt req (mkState [] [] store)). }
  apply G. intros key ds E. discriminate.
Qed.
End Written.

(** ** What a GET writes *)

Lemma uniform_ret {A : Type} (a : A) : uniform (ret a).
Proof. exists (Ok a), []. intros s. unfold ret. now rewrite emit_nil. Qed.

Lemma uniform_lift {A : Type} (r : result A) : uniform (lift r).
Proof. exists r, []. intros s. unfold lift. now rewrite emit_nil. Qed.

Lemma uniform_write b : uniform (wfile_write b).
Proof. exists (Ok tt), [b]. intros s. apply wfile_write_emit. Qed.

Lemma uniform_bind {A B : Type} (m : M A) (k : A -> M B) :
  uniform m -> (forall a, uniform (k a)) -> uniform (bind m k).
Proof.
  intros (r & l & Hm) Hk. destruct r as [a|e].
  - destruct (Hk a) as (r' & l' & Hka). exists r', (l ++ l')%list.
    intros s. unfold bind. now rewrite Hm, Hka, emit_app.
  - exists (Raise e), l. intros s. unfold bind. now rewrite Hm.
Qed.

Lemma uniform_for_each {A : Type} (l : list A) (body : A -> M unit) :
  (forall x, uniform (body x)) -> uniform (for_each l body).
Proof.
  intros Hb. induction l as [|x l IH]; simpl.
  - apply uniform_ret.
  - apply uniform_bind; [apply Hb | intros _; apply IH].
Qed.

Ltac uniform_step :=
  repeat first
    [ apply uniform_ret | apply uniform_lift | apply uniform_write
    | apply uniform_bind; [|intro]
    | apply uniform_for_each; intro
    | match goal with |- uniform (if ?b then _ else _) => destruct b end ].

Section Reading.
Context `{Library}.

Lemma uniform_vehicle_labels vehicle keys :
  forall first, uniform (vehicle_labels vehicle keys first).
Proof.
  induction keys as [|key keys IH]; intros first; simpl; uniform_step. apply IH.
Qed.

Lemma uniform_vehicle_body entry : uniform (vehicle_body entry).
Proof.
  destruct entry as [instance ds]. unfold vehicle_body. uniform_step.
  apply uniform_vehicle_labels.
Qed.


Lemma vehicle_body_view e1 e2 s :
  fst e1 = fst e2 ->
  sget "vehicle" (snd e1) = sget "vehicle" (snd e2) ->
  sget "signals" (snd e1) = sget "signals" (snd e2) ->
  vehicle_body e1 s = vehicle_body e2 s.
Proof.
  destruct e1 as [i1 ds1], e2 as [i2 ds2]. simpl. intros -> Ev Es.
  unfold vehicle_body, ds_getitem. now rewrite Ev, Es.
Qed.

Lemma vehicles_view store1 store2 :
  same_view store1 store2 ->
  forall s, for_each store1 vehicle_body s = for_each store2 vehicle_body s.
Proof.
  induction 1 as [|e1 e2 t1 t2 (Ei & Ev & Es) _ IH]; intros s; [reflexivity|].
  simpl. unfold bind. rewrite (vehicle_body_view e1 e2 s Ei Ev Es).
  destruct (vehicle_body e2 s) as [[[]|e] s']; [apply IH | reflexivity].
Qed.

Lemma emit_inj st l1 l2 : emit st l1 = emit st l2 -> l1 = l2.
Proof.
  unfold emit. intros E. injection E as E. apply app_inv_head in E.
  revert l2 E. induction l1 as [|x l1 IH]; intros [|y l2]; simpl; try discriminate.
  - reflexivity.
  - intros E. injection E as -> E. f_equal. now apply IH.
Qed.

(** X8.  What a GET answers depends on the ids of the store, in their
    order, and on the [vehicle] and the [signals] of each entry only:
    other top-level keys of an entry and the order of its keys do not
    show. *)
Theorem rendering_frame store1 store2 :
  same_view store1 store2 ->
  fst (handle do_GET store1) = fst (handle do_GET store2)
  /\ wfile (snd (handle do_GET store1)) = wfile (snd (handle do_GET store2)).
Proof.
  intros V.
  destruct (uniform_for_each store1 vehicle_body uniform_vehicle_body) as (r & l & U).
  assert (R : forall store, handle do_GET store
                            = for_each store vehicle_body (mkState [] [text_head] store)).
  { intros store. reflexivity. }
  rewrite !R. rewrite <- (vehicles_view store1 store2 V). rewrite !U. split; reflexivity.
Qed.

Lemma gauge_match_id d body meta v ms instance name code st :
  (forall id, instance <> KStr id) ->
  sget "code" d = Some (JStr code) ->
  sget "body" d = Some (JDict body) -> sget "meta" d = Some (JDict meta) ->
  sget "value" body = Some v -> sget "oemUpdatedAt" meta = Some (JInt ms) ->
  write_gauge (JDict d) instance (code, name) st =
  (Raise TypeError,
   emit st (type_unit_lines (mkSample name (coerced v) (sget "unit" body) (ms / 1000)))).
Proof.
  intros Hid Hc Hb Hm Hv Ht. unfold write_gauge.
  rewrite (bind_lift_ok _ _ _ _ (getitem_of_dict _ _ _ Hc)).
  cbn [eq_str fst snd]. rewrite String.eqb_refl. cbn [negb].
  rewrite (bind_lift_ok _ _ _ _ (getitem_of_dict _ _ _ Hb)).
  rewrite (bind_lift_ok _ _ _ _ (getitem_of_dict _ _ _ Hv)).
  rewrite (bind_lift_ok _ _ _ _ (getitem_of_dict _ _ _ Hm)).
  rewrite (bind_lift_ok _ _ _ _ (getitem_of_dict _ _ _ Ht)).
  rewrite (bind_lift_ok _ _ _ _ (eq_refl : floordiv_1000 (JInt ms) = Ok (JInt (ms / 1000)))).
  unfold bind at 1. rewrite wfile_write_emit.
  rewrite (bind_lift_ok _ _ _ _ (getitem_of_dict _ _ _ Hb)).
  rewrite (bind_lift_ok _ _ _ _
             (eq_refl : py_contains "unit" (JDict body)
                        = Ok (dict_mem String.eqb "unit" body))).
  assert (Hk : forall pre post, concat_key pre instance post = Raise TypeError).
  { intros pre post. destruct instance as [| |id]; try reflexivity.
    now destruct (Hid id). }
  unfold type_unit_lines, dict_mem. cbn [metric sample_unit].
  destruct (sget "unit" body) as [u|] eqn:Hu.
  - unfold bind at 1.
    rewrite (bind_lift_ok _ _ _ _ (getitem_of_dict _ _ _ Hb)).
    rewrite (bind_lift_ok _ _ _ _ (getitem_of_dict _ _ _ Hu)).
    rewrite wfile_write_emit.
    rewrite (bind_lift_raise _ _ _ _ (Hk _ _)), emit_app. reflexivity.
  - unfold bind at 1, ret at 1.
    rewrite (bind_lift_raise _ _ _ _ (Hk _ _)). reflexivity.
Qed.

(** X14.  A signal that has a sample, under an id of the store that is
    not a string (a number, [true], [null]): [write_signal] writes the
    TYPE line and the UNIT line of the sample and then raises
    [TypeError]; the sample line is not written. *)
Theorem write_signal_needs_str_id s smp instance st :
  sample_of s = Some (Some smp) ->
  (forall id, instance <> KStr id) ->
  write_signal s instance st = (Raise TypeError, emit st (type_unit_lines smp)).
Proof.
  unfold sample_of. intros S Hid.
  destruct s as [| | | | |d]; try discriminate.
  destruct (sget "status" d) as [[| | | | |sd]|]; try discriminate.
  destruct (sget "value" sd) as [sv|]; try discriminate.
  destruct (negb (eq_str sv "SUCCESS")); try discriminate.
  destruct (sget "code" d) as [[| | |code| |]|] eqn:Hc; try discriminate.
  destruct (sget code gauges) as [name|] eqn:G; try discriminate.
  destruct (sget "body" d) as [[| | | | |body]|] eqn:Hb; try discriminate.
  destruct (sget "meta" d) as [[| | | | |meta]|] eqn:Hm; try discriminate.
  destruct (sget "value" body) as [v|] eqn:Hv; try discriminate.
  destruct (sget "oemUpdatedAt" meta) as [[| |ms| | |]|] eqn:Ht; try discriminate.
  injection S as <-. unfold write_signal. revert G.
  induction gauges as [|[k n] gs IH]; simpl; [discriminate|].
  destruct (String.eqb_spec code k) as [->|D].
  - intros [= ->]. unfold bind.
    now rewrite (gauge_match_id d body meta v ms instance name k st Hid Hc Hb Hm Hv Ht).
  - intros G. unfold bind at 1, write_gauge at 1.
    rewrite (bind_lift_ok _ _ _ _ (getitem_of_dict _ _ _ Hc)).
    cbn [eq_str fst]. rewrite (proj2 (String.eqb_neq code k) D). cbn [negb].
    unfold ret at 1. now apply IH.
Qed.
End Reading.

(** ** [setup_logger] *)

(** X15.  After [setup_logger], on any logger: a record of a level
    above 0 gets to the new console handler exactly when the level is
    at least [console_level], and to the new file handler exactly when
    it is at least [file_level]; the level that the logger is given
    holds back no record that one of the two takes. *)
Theorem setup_logger_levels console_level file_level filename lg level :
  0 < level ->
  let lg' := snd (setup_logger console_level file_level filename (Ok tt) lg) in
  let console := mkHandler StreamHandler None console_level in
  let file :=
    mkHandler (TimedRotatingFileHandler filename "midnight" 30)
              (Some "{asctime} - {levelname} - {message}") file_level in
  logger_level lg' = Z.min file_level console_level
  /\ log_handlers lg' = (log_handlers lg ++ [console; file])%list
  /\ (In console (handled_by lg' level) <-> console_level <= level)
  /\ (In file (handled_by lg' level) <-> file_level <= level).
Proof.
  intros Hl lg' console file.
  assert (Hh : log_handlers lg' = (log_handlers lg ++ [console; file])%list).
  { subst lg' console file. unfold setup_logger. simpl.
    now rewrite <- app_assoc. }
  assert (Hv : logger_level lg' = Z.min file_level console_level) by reflexivity.
  split; [assumption|]. split; [assumption|].
  unfold handled_by. rewrite Hv, Hh.
  destruct (Z.ltb_spec 0 level) as [_|]; [|lia]. cbn [andb].
  split; split.
  - destruct (Z.leb_spec (Z.min file_level console_level) level); [|contradiction].
    intros I. apply filter_In in I. destruct I as [_ I]. simpl in I. lia.
  - intros L. destruct (Z.leb_spec (Z.min file_level console_level) level); [|lia].
    apply filter_In. split; [apply in_or_app; right; now left|]. simpl. lia.
  - destruct (Z.leb_spec (Z.min file_level console_level) level); [|contradiction].
    intros I. apply filter_In in I. destruct I as [_ I]. simpl in I. lia.
  - intros L. destruct (Z.leb_spec (Z.min file_level console_level) level); [|lia].
    apply filter_In. split; [apply in_or_app; right; right; now left|]. simpl. lia.
Qed.

(** ** The further properties on concrete requests *)

Lemma vehicle_error_response_witness :
  handle (do_POST secret (signed_post secret error_body)) store_v1
  = (Ok tt, mkState [] [json_head; Data acknowledged] store_v1).
Proof.
  apply (vehicle_error_response secret (signed_post secret error_body) error_body
           (JDict [("eventType", JStr "VEHICLE_ERROR")]) store_v1);
    [passing error_body | run].
Defined.

Lemma first_state_event_witness :
  let r := handle (do_POST secret (signed_post secret state_body_v2)) store_v1 in
  fst r = Ok tt
  /\ wfile (snd r) = [json_head; Data success]
  /\ map fst (datastore (snd r)) = (map fst store_v1 ++ [KStr "v2"])%list
  /\ exists entry,
      kget (KStr "v2") (datastore (snd r)) = Some entry
      /\ forall k, sget k entry
                   = sget k [("vehicle", JDict [("id", JStr "v2")]); ("signals", JList [])].
Proof.
  apply (first_state_event secret _ _ (KStr "v2") (JList []) store_v1 state_event_v2); run.
Defined.

Lemma state_event_bare :
  state_event secret (signed_post secret state_body_bare)
    [("vehicle", JDict [("id", JStr "v3")])] (KStr "v3").
Proof.
  exists state_body_bare,
    (JDict [("eventType", JStr "VEHICLE_STATE");
            ("data", JDict [("vehicle", JDict [("id", JStr "v3")])])]).
  split; [passing state_body_bare|]. split; [run|]. split; [run|].
  exists (JDict [("id", JStr "v3")]), (JStr "v3"). split; [run | split; run].
Qed.

Lemma state_event_without_signals_witness :
  handle (do_POST secret (signed_post secret state_body_bare)) store_v1
  = (Raise KeyError, mkState [] [json_head] store_v1).
Proof.
  apply (state_event_without_signals secret _ _ (KStr "v3") store_v1 state_event_bare); run.
Defined.

Lemma store_changes_by_state_event_only_witness :
  exists d key,
    state_event secret (signed_post secret state_body_v2) d key
    /\ datastore (snd (handle (do_POST secret (signed_post secret state_body_v2)) store_v1))
       = after_event d key store_v1.
Proof.
  apply (store_changes_by_state_event_only secret).
  rewrite (handle_state_after secret _ _ _ store_v1 state_event_v2).
  vm_compute. discriminate.
Defined.


Lemma rendering_frame_witness :
  fst (handle do_GET store_v1) = fst (handle do_GET store_v1_plain)
  /\ wfile (snd (handle do_GET store_v1)) = wfile (snd (handle do_GET store_v1_plain)).
Proof.
  apply (rendering_frame store_v1 store_v1_plain).
  constructor; [split; [run | split; run] | constructor].
Defined.

Lemma state_event_idempotent_witness :
  let r := handle (do_POST secret (signed_post secret state_body1)) store_v1 in
  handle (do_POST secret (signed_post secret state_body1)) (datastore (snd r)) = r.
Proof.
  apply (state_event_idempotent secret _ data1 (KStr "v1") store_v1 state_event_v1_1).
  run.
Defined.

Lemma state_events_commute_witness :
  let store12 :=
    datastore (snd (handle (do_POST secret (signed_post secret state_body_v2))
                           (datastore (snd (handle (do_POST secret
                                                      (signed_post secret state_body1))
                                                   store_v1))))) in
  let store21 :=
    datastore (snd (handle (do_POST secret (signed_post secret state_body1))
                           (datastore (snd (handle (do_POST secret
                                                      (signed_post secret state_body_v2))
                                                   store_v1))))) in
  kget (KStr "v1") store12 = kget (KStr "v1") store21
  /\ kget (KStr "v2") store12 = kget (KStr "v2") store21.
Proof.
  split;
    apply (state_events_commute secret _ _ data1 _ (KStr "v1") (KStr "v2") store_v1
             state_event_v1_1 state_event_v2);
    discriminate.
Defined.

Lemma entries_keep_keys_witness :
  exists entry',
    kget (KStr "v1")
      (datastore (snd (handle (do_POST secret (signed_post secret state_body1))
                              [(KStr "v1", entry_v1)])))
    = Some entry'
    /\ forall k, sget k entry_v1 <> None -> sget k entry' <> None.
Proof.
  apply (entries_keep_keys secret (signed_post secret state_body1)
           [(KStr "v1", entry_v1)] (KStr "v1") entry_v1).
  run.
Defined.

Lemma write_signal_needs_str_id_witness :
  write_signal
    (JDict [("code", JStr "odometer-traveleddistance");
            ("status", JDict [("value", JStr "SUCCESS")]);
            ("body", JDict [("value", JInt 456); ("unit", JStr "km")]);
            ("meta", JDict [("oemUpdatedAt", JInt 1700000060000)])])
    (KInt 7) (mkState [] [text_head] [])
  = (Raise TypeError,
     emit (mkState [] [text_head] [])
          (type_unit_lines (mkSample "odometer" (JInt 456) (Some (JStr "km")) 1700000060))).
Proof.
  apply (write_signal_needs_str_id _ _ (KInt 7)); [run | discriminate].
Defined.

(** A state event whose vehicle id is the number 7 is taken, and the
    GET after it raises. *)
Example number_id_then_get :
  let r := handle (do_POST secret (signed_post secret state_body_7)) [] in
  fst r = Ok tt
  /\ map fst (datastore (snd r)) = [KInt 7]
  /\ fst (handle do_GET (datastore (snd r))) = Raise TypeError.
Proof. split; [run | split; run]. Qed.

Lemma setup_logger_levels_witness :
  let lg' := snd (setup_logger 10 10 "scp.log" (Ok tt) root_logger) in
  let console := mkHandler StreamHandler None 10 in
  let file :=
    mkHandler (TimedRotatingFileHandler "scp.log" "midnight" 30)
              (Some "{asctime} - {levelname} - {message}") 10 in
  logger_level lg' = Z.min 10 10
  /\ log_handlers lg' = (log_handlers root_logger ++ [console; file])%list
  /\ (In console (handled_by lg' 30) <-> 10 <= 30)
  /\ (In file (handled_by lg' 30) <-> 10 <= 30).
Proof. apply (setup_logger_levels 10 10 "scp.log" root_logger 30). lia. Defined.

(** ** A state event, then a GET *)

Lemma kset_new {V : Type} key (v : V) store :
  kget key store = None -> kset key v store = (store ++ [(key, v)])%list.
Proof.
  induction store as [|[k' v'] r IH]; simpl; [reflexivity|].
  destruct (pykey_eqb key k'); [discriminate|]. intros G. now rewrite IH.
Qed.

Lemma same_view_last (store : DataStore) key ds1 ds2 :
  sget "vehicle" ds1 = sget "vehicle" ds2 ->
  sget "signals" ds1 = sget "signals" ds2 ->
  same_view (store ++ [(key, ds1)])%list (store ++ [(key, ds2)])%list.
Proof.
  intros Ev Es. unfold same_view. induction store as [|e store IH]; simpl.
  - constructor; [|constructor]. simpl. now repeat split.
  - constructor; [now repeat split | exact IH].
Qed.

Section EventThenGet.
Context `{Library} (amt : string).

(** X16.  After the first state event for a vehicle, with signals in
    its data object, a GET answers as it does on the store before the
    event with the id and the data object of the event put after it:
    the vehicle is rendered last, from the [vehicle] and the [signals]
    of the payload. *)
Theorem first_event_then_get req d key signals store :
  state_event amt req d key ->
  kget key store = None ->
  sget "signals" d = Some signals ->
  let store' := datastore (snd (handle (do_POST amt req) store)) in
  fst (handle do_GET store') = fst (handle do_GET (store ++ [(key, d)])%list)
  /\ wfile (snd (handle do_GET store'))
     = wfile (snd (handle do_GET (store ++ [(key, d)])%list)).
Proof.
  intros E G Gs store'. subst store'.
  rewrite (handle_state_event amt req d key store E).
  destruct E as (_ & _ & _ & _ & _ & vehicle & _ & Hv & _).
  assert (S : start_entry d key store = Some [("signals", signals); ("vehicle", vehicle)])
    by (unfold start_entry; now rewrite G, Gs, Hv).
  rewrite S. cbn [snd datastore]. rewrite (kset_new _ _ _ G).
  assert (V : same_view
                (store ++ [(key, merged d [("signals", signals); ("vehicle", vehicle)])])%list
                (store ++ [(key, d)])%list).
  { apply same_view_last; rewrite sget_merged.
    - now rewrite Hv.
    - now rewrite Gs. }
  destruct (uniform_for_each
              (store ++ [(key, merged d [("signals", signals); ("vehicle", vehicle)])])%list
              vehicle_body uniform_vehicle_body) as (r & l & U).
  assert (R : forall st, handle do_GET st
                         = for_each st vehicle_body (mkState [] [text_head] st)).
  { intros st. reflexivity. }
  rewrite !R. rewrite <- (vehicles_view _ _ V). rewrite !U. split; reflexivity.
Qed.
End EventThenGet.

Lemma first_event_then_get_witness :
  let store' :=
    datastore (snd (handle (do_POST secret (signed_post secret state_body_v2)) store_v1)) in
  let d := [("vehicle", JDict [("id", JStr "v2")]); ("signals", JList [])] in
  fst (handle do_GET store') = fst (handle do_GET (store_v1 ++ [(KStr "v2", d)])%list)
  /\ wfile (snd (handle do_GET store'))
     = wfile (snd (handle do_GET (store_v1 ++ [(KStr "v2", d)])%list)).
Proof.
  apply (first_event_then_get secret _ _ (KStr "v2") (JList []) store_v1 state_event_v2);
    run.
Defined.
